(** * Eco Agent: message-context management, RAG endpoint and tools

    A shallow embedding of the chat route handler (token estimation,
    trimming, metadata stripping, summarisation, reload and persistence
    filters), of the /api/eco-rag route handler and of the
    [olympiaRAGSearch] and [generateImage] tools, followed by the
    properties established about them.

    Conventions of the embedding.
    - A JavaScript string is its sequence of UTF-16 code units, so that
      [length] is the [.length] of the source.
    - A run-time value is a JSON-like tree ([value]); [VUndefined] is kept
      because the handlers write [imageData: undefined] and read absent
      properties.  Numbers are the integers (no fraction, magnitude within
      the safe-integer range, printed in decimal).
    - The token estimates are computed on integers, the two infinities and
      NaN ([jsnum]): a [length] that is read from a value other than a
      string gives them.
    - An object is the list of its own enumerable properties in enumeration
      order; property names are pairwise distinct in a JavaScript object.
    - Code that may raise returns an [option]: [None] is a thrown
      exception. *)

From Stdlib Require Import ZArith List Bool String Ascii Lia DecimalString.
From stdpp Require Import base list.

Set Warnings "-register-all".

(** ** JavaScript strings and values *)

Module JS.

Definition jsstring := list N.

(** The code units of an ASCII literal of the source. *)
Definition js (s : string) : jsstring :=
  map N_of_ascii (list_ascii_of_string s).
Arguments js _%_string.

Definition dquote : jsstring := [34%N].

Inductive value :=
| VUndefined
| VNull
| VBool (b : bool)
| VNum (n : Z)
| VStr (s : jsstring)
| VArr (xs : list value)
| VObj (fields : list (jsstring * value)).

Definition obj := list (jsstring * value).

#[global] Instance jsstring_eq_dec : EqDecision jsstring := _.

(** [s.startsWith(p)] *)
Definition startsWith (s p : jsstring) : bool := bool_decide (p `prefix_of` s).

(** [s.length] *)
Definition len (s : jsstring) : Z := Z.of_nat (length s).

(** [s.substring(0, n)] *)
Definition substring0 (n : Z) (s : jsstring) : jsstring := take (Z.to_nat n) s.

(** [xs.join(sep)] on strings *)
Fixpoint join (sep : jsstring) (xs : list jsstring) : jsstring :=
  match xs with
  | [] => []
  | [x] => x
  | x :: rest => x ++ sep ++ join sep rest
  end.

(** [s.includes(x)] *)
Definition includes (s x : jsstring) : Prop :=
  exists pre post, s = pre ++ x ++ post.

(** Own property [k] of an object, first binding. *)
Fixpoint assoc (k : jsstring) (fs : obj) : option value :=
  match fs with
  | [] => None
  | (k', v) :: rest => if decide (k' = k) then Some v else assoc k rest
  end.

(** [o.k] on an object: [undefined] when absent. *)
Definition field (k : jsstring) (fs : obj) : value :=
  default VUndefined (assoc k fs).

(** [v.k] for a value that is neither [null] nor [undefined] and a name
    [k] that no prototype defines (all names read by the handlers are of
    that kind): primitives and arrays give [undefined]. *)
Definition get (k : jsstring) (v : value) : value :=
  match v with
  | VObj fs => field k fs
  | _ => VUndefined
  end.

(** [v?.k] *)
Definition get_opt (k : jsstring) (v : value) : value :=
  match v with
  | VUndefined | VNull => VUndefined
  | _ => get k v
  end.

(** [{...o, k: v}]: an existing property keeps its place, a new one is
    appended. *)
Fixpoint set_field (k : jsstring) (v : value) (fs : obj) : obj :=
  match fs with
  | [] => [(k, v)]
  | (k', v') :: rest =>
      if decide (k' = k) then (k, v) :: rest else (k', v') :: set_field k v rest
  end.

(** ToBoolean *)
Definition truthy (v : value) : bool :=
  match v with
  | VUndefined | VNull => false
  | VBool b => b
  | VNum n => negb (n =? 0)%Z
  | VStr s => negb (bool_decide (s = []))
  | VArr _ | VObj _ => true
  end.

(** [a || b] *)
Definition or_else (a b : value) : value := if truthy a then a else b.

(** [v !== undefined && v !== null] *)
Definition present (v : value) : bool :=
  match v with
  | VUndefined | VNull => false
  | _ => true
  end.

(** [v && typeof v === 'object'] *)
Definition is_object (v : value) : bool :=
  match v with
  | VArr _ | VObj _ => true
  | _ => false
  end.

(** [typeof t === 'string' && t.startsWith(p)] *)
Definition str_startsWith (t : value) (p : jsstring) : bool :=
  match t with
  | VStr s => startsWith s p
  | _ => false
  end.

(** [v === 's'] for a string literal [s] *)
Definition str_eq (v : value) (s : jsstring) : bool :=
  match v with
  | VStr t => bool_decide (t = s)
  | _ => false
  end.

(** Decimal text of an integer. *)
Definition show_Z (n : Z) : jsstring :=
  js (NilZero.string_of_int (Z.to_int n)).

(** ToString, as template literals apply it. *)
Fixpoint to_text (v : value) : jsstring :=
  match v with
  | VUndefined => js "undefined"
  | VNull => js "null"
  | VBool b => if b then js "true" else js "false"
  | VNum n => show_Z n
  | VStr s => s
  | VArr xs =>
      join (js ",")
        (map (fun x => match x with
                       | VUndefined | VNull => []
                       | _ => to_text x
                       end) xs)
  | VObj _ => js "[object Object]"
  end.

(** *** Numbers of the token estimates *)

Inductive jsnum :=
| Num (n : Z)
| PosInf
| NegInf
| NaN.

(** [a + b] *)
Definition num_add (a b : jsnum) : jsnum :=
  match a, b with
  | NaN, _ | _, NaN => NaN
  | Num x, Num y => Num (x + y)
  | PosInf, NegInf | NegInf, PosInf => NaN
  | PosInf, _ | _, PosInf => PosInf
  | NegInf, _ | _, NegInf => NegInf
  end.

(** [a > b] and [a <= b] for an integer [b]: both are false of NaN. *)
Definition num_gt (a : jsnum) (b : Z) : bool :=
  match a with
  | Num x => (x >? b)%Z
  | PosInf => true
  | NegInf | NaN => false
  end.

Definition num_le (a : jsnum) (b : Z) : bool :=
  match a with
  | Num x => (x <=? b)%Z
  | NegInf => true
  | PosInf | NaN => false
  end.

(** *** Equality of values *)

(** The two values are the same tree. *)
Fixpoint value_eqb (a b : value) {struct a} : bool :=
  match a, b with
  | VUndefined, VUndefined => true
  | VNull, VNull => true
  | VBool x, VBool y => Bool.eqb x y
  | VNum x, VNum y => (x =? y)%Z
  | VStr x, VStr y => bool_decide (x = y)
  | VArr xs, VArr ys =>
      (fix elements (xs ys : list value) : bool :=
         match xs, ys with
         | [], [] => true
         | x :: xs, y :: ys => value_eqb x y && elements xs ys
         | _, _ => false
         end) xs ys
  | VObj fs, VObj gs =>
      (fix members (fs gs : obj) : bool :=
         match fs, gs with
         | [], [] => true
         | (k, x) :: fs, (l, y) :: gs =>
             bool_decide (k = l) && value_eqb x y && members fs gs
         | _, _ => false
         end) fs gs
  | _, _ => false
  end.

(** *** JSON.stringify *)

Definition hex_digit (d : N) : N :=
  if (d <? 10)%N then (48 + d)%N else (87 + d)%N.

Definition unicode_escape (c : N) : jsstring :=
  js "\u" ++ [hex_digit (c / 4096); hex_digit ((c / 256) mod 16);
              hex_digit ((c / 16) mod 16); hex_digit (c mod 16)].

Definition is_lead (c : N) : bool := ((55296 <=? c) && (c <=? 56319))%N.
Definition is_trail (c : N) : bool := ((56320 <=? c) && (c <=? 57343))%N.

(** QuoteJSONString without the enclosing quotes: the short escapes,
    [\u00xx] for the other control characters, [\udxxx] for a surrogate
    that is not part of a pair. *)
Fixpoint quote_chars (s : jsstring) : jsstring :=
  match s with
  | [] => []
  | c :: rest =>
      if (c =? 8)%N then js "\b" ++ quote_chars rest
      else if (c =? 9)%N then js "\t" ++ quote_chars rest
      else if (c =? 10)%N then js "\n" ++ quote_chars rest
      else if (c =? 12)%N then js "\f" ++ quote_chars rest
      else if (c =? 13)%N then js "\r" ++ quote_chars rest
      else if (c =? 34)%N then js "\" ++ dquote ++ quote_chars rest
      else if (c =? 92)%N then js "\\" ++ quote_chars rest
      else if (c <? 32)%N then unicode_escape c ++ quote_chars rest
      else if is_lead c then
        match rest with
        | d :: rest' =>
            if is_trail d then c :: d :: quote_chars rest'
            else unicode_escape c ++ quote_chars rest
        | [] => unicode_escape c
        end
      else if is_trail c then unicode_escape c ++ quote_chars rest
      else c :: quote_chars rest
  end.

Definition quote (s : jsstring) : jsstring := dquote ++ quote_chars s ++ dquote.

(** [JSON.stringify(v)]: [None] is the result [undefined].  A property
    whose value is [undefined] is left out, an [undefined] array element is
    written [null]. *)
Fixpoint stringify (v : value) : option jsstring :=
  match v with
  | VUndefined => None
  | VNull => Some (js "null")
  | VBool b => Some (if b then js "true" else js "false")
  | VNum n => Some (show_Z n)
  | VStr s => Some (quote s)
  | VArr xs =>
      Some (js "[" ++
            join (js ",") (map (fun x => default (js "null") (stringify x)) xs)
            ++ js "]")
  | VObj fs =>
      Some (js "{" ++
            join (js ",")
              (omap (fun kx => (fun t => quote (fst kx) ++ js ":" ++ t)
                                 <$> stringify (snd kx)) fs)
            ++ js "}")
  end.

End JS.

Export JS.

(** ** The chat route handler *)

Module Chat.

(** A message is an object; [parts], [role] and [id] are read from it. *)
Definition message := obj.

(** [Math.ceil(text.length / 4)] for a string, which is what the
    declaration [estimateTokens(text: string)] expects. *)
Definition estimateTokens (text : jsstring) : Z :=
  (len text + 3) / 4.

Section Estimate.

(** [Math.ceil(Number(s) / 4)] for a string [s], as the host computes it:
    the grammar of numeric strings and the rounding of their values are
    not modelled. *)
Variable ceil_quarter_of_string : jsstring -> jsnum.

(** [v.length] for a truthy [v]: the length of a string or of an array,
    the property of that name of an object, [undefined] for a number and
    for [true]. *)
Definition length_of (v : value) : value :=
  match v with
  | VStr s => VNum (len s)
  | VArr xs => VNum (Z.of_nat (length xs))
  | VObj fs => field (js "length") fs
  | _ => VUndefined
  end.

(** [Math.ceil(v / 4)]: ToNumber of [v] (an array by way of its text, an
    object always NaN), the division, the rounding up. *)
Definition ceil_quarter (v : value) : jsnum :=
  match v with
  | VUndefined => NaN
  | VNull => Num 0
  | VBool b => Num (if b then 1 else 0)
  | VNum n => Num ((n + 3) / 4)
  | VStr s => ceil_quarter_of_string s
  | VArr _ => ceil_quarter_of_string (to_text v)
  | VObj _ => NaN
  end.

(** [estimateTokens(partText)]: [partText] has type [any], so the call is
    not checked, and what is passed is any truthy value. *)
Definition estimateTokens_any (partText : value) : jsnum :=
  ceil_quarter (length_of partText).

(** The contribution of one part to [estimateMessageTokens].  Nothing
    raises inside the [try] (a truthy value has a [length], a JSON tree is
    serialised without error), so the two [catch] fallbacks of the source
    are not reached. *)
Definition estimatePartTokens (part : value) : jsnum :=
  match part with
  | VStr s => Num (estimateTokens s)
  | VArr _ | VObj _ =>
      let partType := get (js "type") part in
      let partText := get (js "text") part in
      if str_eq partType (js "text") && truthy partText
      then estimateTokens_any partText
      else Num (estimateTokens (default [] (stringify part)))
  | _ => Num 0
  end.

Definition estimateMessageTokens (message : message) : jsnum :=
  let tokens :=
    match field (js "parts") message with
    | VArr parts =>
        fold_left (fun tokens part => num_add tokens (estimatePartTokens part))
                  parts (Num 4)
    | _ => Num 4
    end in
  if num_le tokens 10
  then Num (estimateTokens (default [] (stringify (VObj message))))
  else tokens.

(** The backwards loop of [trimMessages]: [pending] holds the messages not
    yet visited, most recent first, with their estimates. *)
Fixpoint keep_recent (pending : list (message * jsnum)) (maxTokens : Z)
    (currentTokens : jsnum) (trimmedMessages : list message) : list message :=
  match pending with
  | [] => trimmedMessages
  | (msg, tokens) :: earlier =>
      if num_gt (num_add currentTokens tokens) maxTokens then trimmedMessages
      else keep_recent earlier maxTokens (num_add currentTokens tokens)
             (msg :: trimmedMessages)
  end.

Definition is_user (msg : message) : bool :=
  str_eq (field (js "role") msg) (js "user").

Definition trimMessages (messages : list message) (maxTokens : Z)
    : list message :=
  match messages with
  | [] => messages
  | first :: _ =>
      let messageTokens :=
        map (fun msg => (msg, estimateMessageTokens msg)) messages in
      match keep_recent (rev messageTokens) maxTokens (Num 0) [] with
      | [] =>
          match find is_user (rev messages) with
          | Some lastUser => [lastUser]
          | None => [List.last messages first]
          end
      | trimmedMessages => trimmedMessages
      end
  end.

(** Sum of the estimates of a list of messages, added up from the most
    recent one as the loop does: it is [currentTokens] when the loop has
    kept these messages. *)
Definition total_tokens (messages : list message) : jsnum :=
  foldr (fun msg acc => num_add acc (estimateMessageTokens msg)) (Num 0)
        messages.

End Estimate.

(** The [text] of the part is a string whenever the part is a text part
    with a truthy [text]. *)
Definition text_is_string (part : value) : bool :=
  if is_object part
     && str_eq (get (js "type") part) (js "text")
     && truthy (get (js "text") part)
  then match get (js "text") part with
       | VStr _ => true
       | _ => false
       end
  else true.

(** Every text part of the message holds a string. *)
Definition string_texts (message : message) : bool :=
  match field (js "parts") message with
  | VArr parts => forallb text_is_string parts
  | _ => true
  end.

(** *** stripResponseMetadata *)

Definition metadata_keys : list jsstring :=
  [js "response"; js "responseId"; js "rs_id"; js "response_id";
   js "requestId"; js "request_id"].

(** The replacer passed to [JSON.stringify]: [true] when it answers
    [undefined] for the property [key] holding [v]. *)
Definition replacer_drops (key : jsstring) (v : value) : bool :=
  bool_decide (key ∈ metadata_keys) || str_startsWith v (js "rs_").

(** The key under which the replacer sees the array element at index [i]. *)
Definition index_key (i : nat) : jsstring := show_Z (Z.of_nat i).

(** [JSON.parse(JSON.stringify(holder[key], replacer))] for the property
    [key] holding [v]: the tree that the text written by SerializeJSONProperty
    parses to, [None] when nothing is written.  A dropped or [undefined]
    property is left out of an object and is written [null] in an array. *)
Fixpoint clean_property (key : jsstring) (v : value) {struct v}
    : option value :=
  if replacer_drops key v then None
  else
    match v with
    | VUndefined => None
    | VArr xs =>
        Some (VArr
          ((fix elements (i : nat) (xs : list value) : list value :=
              match xs with
              | [] => []
              | x :: rest =>
                  default VNull (clean_property (index_key i) x)
                  :: elements (S i) rest
              end) 0 xs))
    | VObj fs =>
        Some (VObj
          ((fix members (fs : obj) : obj :=
              match fs with
              | [] => []
              | (k, x) :: rest =>
                  match clean_property k x with
                  | Some x' => (k, x') :: members rest
                  | None => members rest
                  end
              end) fs))
    | _ => Some v
    end.

(** The callback of [parts.map]: the top-level call is for the key [""];
    it writes a text for every array and object, so [JSON.parse] receives
    one. *)
Definition strip_part (part : value) : value :=
  if is_object part then default part (clean_property [] part) else part.

Definition stripResponseMetadata (parts : value) : value :=
  match parts with
  | VArr ps => VArr (map strip_part ps)
  | _ => parts
  end.

(** No object inside [v] has a property that the replacer drops: none of
    the six names, no string value starting with [rs_]. *)
Fixpoint no_metadata (v : value) : bool :=
  match v with
  | VArr xs => forallb no_metadata xs
  | VObj fs =>
      forallb (fun kx => negb (replacer_drops (fst kx) (snd kx))
                         && no_metadata (snd kx)) fs
  | _ => true
  end.

(** [v] is JSON data: [undefined] occurs nowhere in it (as in everything
    that [JSON.parse] returns). *)
Fixpoint is_json (v : value) : bool :=
  match v with
  | VUndefined => false
  | VArr xs => forallb is_json xs
  | VObj fs => forallb (fun kx => is_json (snd kx)) fs
  | _ => true
  end.

(** The cleaning in words, for JSON data: inside objects, the properties
    with one of the six names or with a string value starting with [rs_]
    are removed; inside arrays, a string element starting with [rs_]
    becomes [null]; every other property and element is kept in place, its
    value cleaned in the same way. *)
Fixpoint strip_spec (v : value) : value :=
  match v with
  | VArr xs =>
      VArr (map (fun x => if str_startsWith x (js "rs_") then VNull
                          else strip_spec x) xs)
  | VObj fs =>
      VObj (omap (fun kx =>
                    if bool_decide (fst kx ∈ metadata_keys)
                       || str_startsWith (snd kx) (js "rs_")
                    then None else Some (fst kx, strip_spec (snd kx))) fs)
  | _ => v
  end.

(** The cleaning as the claim words it: only properties are removed, all
    the rest is unchanged. *)
Fixpoint strip_fields_only (v : value) : value :=
  match v with
  | VArr xs => VArr (map strip_fields_only xs)
  | VObj fs =>
      VObj (omap (fun kx =>
                    if bool_decide (fst kx ∈ metadata_keys)
                       || str_startsWith (snd kx) (js "rs_")
                    then None else Some (fst kx, strip_fields_only (snd kx))) fs)
  | _ => v
  end.

(** *** countToolCalls and summarizeOlderMessages *)

(** [part && typeof part === 'object' && typeof part.type === 'string'
     && part.type.startsWith('tool-')] *)
Definition is_tool_part (part : value) : bool :=
  is_object part && str_startsWith (get (js "type") part) (js "tool-").

Definition countToolCalls (messages : list message) : nat :=
  fold_left
    (fun count msg =>
       match field (js "parts") msg with
       | VArr parts =>
           fold_left (fun count part =>
                        if is_tool_part part then S count else count)
                     parts count
       | _ => count
       end)
    messages 0.

(** [messages.slice(-3)] and [messages.slice(0, -3)] *)
Definition slice_last3 {A} (xs : list A) : list A := drop (length xs - 3) xs.
Definition slice_but_last3 {A} (xs : list A) : list A := take (length xs - 3) xs.

Definition arrow : jsstring := [8594%N].

Section Summarize.

(** [JSON.parse] of the host; [None] when it raises SyntaxError. *)
Variable JSON_parse : jsstring -> option value.

(** [p.toolCall?.args?.k || p.args?.k || fallback] *)
Definition tool_arg (p : value) (k : jsstring) (fallback : jsstring) : value :=
  or_else
    (or_else (get_opt k (get_opt (js "args") (get (js "toolCall") p)))
             (get_opt k (get (js "args") p)))
    (VStr fallback).

(** The lines that one part adds to [summaryParts]; [role] is [msg.role].
    The [text] of a text part is a string. *)
Definition summary_of_part (role : value) (p : value) : list jsstring :=
  if negb (is_object p) then []
  else
    let type := get (js "type") p in
    if str_eq type (js "text") && truthy (get (js "text") p) then
      match get (js "text") p with
      | VStr t =>
          let text := if (500 <? len t)%Z then substring0 500 t ++ js "..."
                      else t in
          [js "[" ++ to_text role ++ js "]: " ++ text]
      | other => [js "[" ++ to_text role ++ js "]: " ++ to_text other]
      end
    else
      match type with
      | VStr ty =>
          if startsWith ty (js "tool-") then
            let toolName := drop 5 ty in
            if bool_decide (ty = js "tool-olympiaRAGSearch") then
              let parsed :=
                match get (js "result") p with
                | VStr r => JSON_parse r
                | other => Some other
                end in
              match parsed with
              | Some result =>
                  if truthy (get_opt (js "context_id") result) then
                    [js "[RAG Search: "
                     ++ to_text (or_else (get (js "query") result)
                                         (VStr (js "unknown")))
                     ++ js " " ++ arrow ++ js " context_id: "
                     ++ to_text (get (js "context_id") result) ++ js "]"]
                  else []
              | None => [js "[RAG Search completed]"]
              end
            else if bool_decide (ty = js "tool-createChart") then
              [js "[Created chart: "
               ++ to_text (tool_arg p (js "title") (js "chart")) ++ js "]"]
            else if bool_decide (ty = js "tool-createCSV") then
              [js "[Created CSV: "
               ++ to_text (tool_arg p (js "title") (js "csv")) ++ js "]"]
            else if bool_decide (ty = js "tool-generateImage") then
              [js "[Generated image]"]
            else if bool_decide (ty = js "tool-webSearch") then
              [js "[Web search: " ++ dquote
               ++ to_text (tool_arg p (js "query") [])
               ++ dquote ++ js "]"]
            else [js "[" ++ toolName ++ js " completed]"]
          else []
      | _ => []
      end.

Definition summary_of_message (msg : message) : list jsstring :=
  match field (js "parts") msg with
  | VArr parts => flat_map (summary_of_part (field (js "role") msg)) parts
  | _ => []
  end.

Definition newline : jsstring := [10%N].

Definition summaryText (olderMessages : list message) : jsstring :=
  js "**Conversation History Summary ("
  ++ show_Z (Z.of_nat (length olderMessages))
  ++ js " earlier messages):**" ++ newline ++ newline
  ++ join newline (take 20 (flat_map summary_of_message olderMessages))
  ++ newline ++ newline ++ js "---" ++ newline ++ newline
  ++ js "*Recent conversation continues below:*".

(** The synthetic message; [now] is the reading of [Date.now()]. *)
Definition summaryMessage (now : Z) (olderMessages : list message) : message :=
  [(js "id", VStr (js "summary-" ++ show_Z now));
   (js "role", VStr (js "user"));
   (js "parts",
    VArr [VObj [(js "type", VStr (js "text"));
                (js "text", VStr (summaryText olderMessages))]])].

Definition summarizeOlderMessages (now : Z) (messages : list message)
    : list message :=
  let toolCallCount := countToolCalls messages in
  if (toolCallCount <? 5) || (length messages <=? 3) then messages
  else
    let recentMessages := slice_last3 messages in
    let olderMessages := slice_but_last3 messages in
    match olderMessages with
    | [] => messages
    | _ => summaryMessage now olderMessages :: recentMessages
    end.

End Summarize.

(** *** Building the message history of a request *)

(** A row returned by [db.getChatMessages]; [db_content] is what
    [JSON.parse(msg.content)] gives for the stored JSON text. *)
Record db_message := {
  db_id : value;
  db_role : value;
  db_content : value;
}.

(** [hasOutput || hasResult] of a tool part *)
Definition has_output_or_result (part : value) : bool :=
  present (get (js "output") part) || present (get (js "result") part).

(** The filter applied to the parts reloaded from the database. *)
Definition keep_loaded_part (part : value) : bool :=
  if negb (is_object part) then true
  else if str_eq (get (js "type") part) (js "text") then true
  else if str_startsWith (get (js "type") part) (js "tool-")
       then has_output_or_result part
  else false.

Definition loadedMessage (row : db_message) : message :=
  let rawParts := db_content row in
  let filteredParts :=
    match rawParts with
    | VArr ps => VArr (filter (fun part => keep_loaded_part part = true) ps)
    | _ => rawParts
    end in
  [(js "id", db_id row); (js "role", db_role row);
   (js "parts", stripResponseMetadata filteredParts)].

(** The filter applied to the parts received from the frontend. *)
Definition keep_frontend_part (part : value) : bool :=
  if negb (is_object part) then true
  else str_eq (get (js "type") part) (js "text")
       || str_startsWith (get (js "type") part) (js "tool-").

Definition check_mark : jsstring := [10003%N].

(** The [_saved] note written by the request filters. *)
Definition saved_note (imageId : jsstring) : jsstring :=
  check_mark ++ js " Image saved to database (ID: " ++ imageId
  ++ js "). Display using: ![image](image:" ++ imageId ++ js ")".

(** The [_saved] note written by [onFinish]. *)
Definition saved_note_onFinish (imageId : jsstring) : jsstring :=
  check_mark ++ js " Image successfully saved to database (ID: " ++ imageId
  ++ js "). Display it using: ![image](image:" ++ imageId ++ js ")".

(** The [.map] callback that removes the base64 payload of a
    [tool-generateImage] result.  Reading [part.type] raises TypeError on
    [null] and [undefined]. *)
Definition strip_image_data (note : jsstring -> jsstring) (part : value)
    : option value :=
  match part with
  | VUndefined | VNull => None
  | VObj pfs =>
      if str_eq (field (js "type") pfs) (js "tool-generateImage") then
        match field (js "result") pfs with
        | VObj rfs =>
            if truthy (field (js "imageData") rfs) then
              let imageId :=
                to_text (or_else (field (js "imageId") rfs)
                                 (VStr (js "unknown"))) in
              Some (VObj
                (set_field (js "result")
                   (VObj (set_field (js "_saved") (VStr (note imageId))
                            (set_field (js "imageData") VUndefined rfs)))
                   pfs))
            else Some part
        | _ => Some part
        end
      else Some part
  | _ => Some part
  end.

(** [parts.filter(keep).map(strip)] *)
Definition filter_parts (keep : value -> bool) (note : jsstring -> jsstring)
    (parts : list value) : option (list value) :=
  mapM (strip_image_data note) (filter (fun part => keep part = true) parts).

(** The last frontend message of a reloaded conversation. *)
Definition filteredNewMessage (newMessage : message) : option message :=
  let processedParts :=
    match field (js "parts") newMessage with
    | VArr ps => ps
    | _ => []
    end in
  parts ← filter_parts keep_frontend_part saved_note processedParts;
  Some (set_field (js "parts") (VArr parts) newMessage).

(** A frontend message of a first request. *)
Definition filteredFirstMessage (msg : message) : option message :=
  match field (js "parts") msg with
  | VArr ps =>
      parts ← filter_parts keep_frontend_part saved_note ps;
      Some (set_field (js "parts") (VArr parts) msg)
  | other => Some (set_field (js "parts") other msg)
  end.

(** The [messages] that [POST] builds from the request body ([sessionId],
    [frontendMessages]) and from the rows read back when the conversation
    is reloaded ([None] when the read returns no data). *)
Definition build_messages (sessionId : value) (frontendMessages : list message)
    (dbMessages : option (list db_message)) : option (list message) :=
  if truthy sessionId && (1 <? length frontendMessages) then
    let loadedMessages := map loadedMessage (default [] dbMessages) in
    match last frontendMessages with
    | Some newMessage =>
        filtered ← filteredNewMessage newMessage;
        Some (loadedMessages ++ [filtered])
    | None => None
    end
  else mapM filteredFirstMessage frontendMessages.

(** What is handed to [convertToModelMessages]. *)
Definition model_input (ceil_quarter_of_string : jsstring -> jsnum)
    (JSON_parse : jsstring -> option value) (now : Z)
    (messages : list message) : list message :=
  trimMessages ceil_quarter_of_string
    (summarizeOlderMessages JSON_parse now messages) 10000.

(** *** Persistence *)



(** The filter of [onFinish]. *)
Definition keep_for_save (role : value) (part : value) : bool :=
  if str_eq role (js "user") then true
  else if is_object part then
    if str_eq (get (js "type") part) (js "text") then true
    else if str_startsWith (get (js "type") part) (js "tool-")
         then has_output_or_result part
    else false
  else false.

(** [contentToSave] of [onFinish] for one message. *)
Definition contentToSave (message : message) : option value :=
  match field (js "parts") message with
  | VArr parts =>
      saved ← filter_parts (keep_for_save (field (js "role") message))
                saved_note_onFinish parts;
      Some (VArr saved)
  | _ =>
      match field (js "content") message with
      | VStr c =>
          if truthy (VStr c)
          then Some (VArr [VObj [(js "type", VStr (js "text"));
                                 (js "text", VStr c)]])
          else Some (VArr [])
      | VArr c => Some (VArr c)
      | _ => Some (VArr [])
      end
  end.



(** A part that is a tool call without a result: its type begins with
    [tool-] and neither [output] nor [result] is non-null. *)
Definition incomplete_tool_part (part : value) : bool :=
  is_tool_part part && negb (has_output_or_result part).


End Chat.

Export Chat.

(** ** The /api/eco-rag route handler *)

Module EcoRag.

(** An awaited call either returns or raises an [Error] with a message. *)
Inductive outcome (A : Type) :=
| Returns (a : A)
| Raises (message : jsstring).
Arguments Returns {A} a.
Arguments Raises {A} message.

(** WhiteSpace and LineTerminator code units, which [trim] removes. *)
Definition is_whitespace (c : N) : bool :=
  bool_decide (c ∈ [9; 10; 11; 12; 13; 32; 160; 5760; 8232; 8233; 8239; 8287;
                    12288; 65279]%N)
  || ((8192 <=? c) && (c <=? 8202))%N.

Fixpoint trim_start (s : jsstring) : jsstring :=
  match s with
  | c :: rest => if is_whitespace c then trim_start rest else s
  | [] => []
  end.

(** [s.trim()] *)
Definition trim (s : jsstring) : jsstring :=
  rev (trim_start (rev (trim_start s))).

Section Endpoint.

(** Distances are IEEE doubles; they are only copied, printed with
    [toFixed(4)] and subtracted from 1. *)
Context {number : Type}.
Variable toFixed4 : number -> jsstring.
Variable one_minus : number -> number.

Record VectorResult := {
  key : jsstring;
  distance : number;
  metadata : value;
}.

(** An element of [sources] in the response. *)
Record source := {
  src_doc_id : value;
  src_title : value;
  src_page : value;
  src_s3_pdf_key : value;
  src_distance : number;
  src_url : jsstring;
  src_content : value;
  src_description : jsstring;
  src_source : jsstring;
  src_relevanceScore : number;
  src_toolType : jsstring;
}.

(** An element of [sources] in the response of the earlier version. *)
Record source_v1 := {
  v1_doc_id : value;
  v1_title : value;
  v1_page : value;
  v1_s3_pdf_key : value;
  v1_distance : number;
}.

(** A stored RagContext row, as passed to [db.createRagContext]. *)
Record rag_context := {
  ctx_id : jsstring;
  ctx_sessionId : value;
  ctx_query : jsstring;
  ctx_results : list VectorResult;
  ctx_rawContext : jsstring;
  ctx_compressedSummary : jsstring;
  ctx_sources : list source;
  ctx_tokenCount : Z;
}.

(** What the chat-completion call of [compressContext] gives:
    [choices[0].message.content || ""] and
    [usage?.completion_tokens || 0]. *)
Record completion := {
  summary : jsstring;
  tokenCount : Z;
}.

(** The world around one request: the hosted services as functions of
    what they are sent, the clock, and whether the insert succeeds. *)
Record world := {
  has_api_key : bool;
  embeddings_create : jsstring -> outcome (list number);
  vectors_query : list number -> value -> outcome (list VectorResult);
  chat_completion : jsstring -> outcome completion;
  insert_raises : option jsstring;
  now : nat -> Z;
  random36 : jsstring;
}.

(** The same world with another fate for the insert. *)
Definition with_insert (fate : option jsstring) (w : world) : world :=
  {| has_api_key := has_api_key w;
     embeddings_create := embeddings_create w;
     vectors_query := vectors_query w;
     chat_completion := chat_completion w;
     insert_raises := fate;
     now := now w;
     random36 := random36 w |}.

(** The calls that leave the handler. *)
Inductive event :=
| EmbeddingCall (query : jsstring)
| VectorQuery (topK : value)
| CompressionCall (prompt : jsstring)
| ContextInsert (row : rag_context).

Inductive body :=
| ErrorBody (error : jsstring) (details : option jsstring)
    (processingTimeMs : option Z)
| RagBody (context_id : jsstring) (compressed_summary : jsstring)
    (sources : list source) (query : jsstring) (processingTimeMs : Z)
    (tokenCount : Z)
| AnswerBody (answer : jsstring) (sources : list source_v1) (query : jsstring)
    (processingTimeMs : Z).

Record response := {
  status : Z;
  json : body;
}.

(** The state threaded through the handler: the RagContext table and the
    calls made so far. *)
Record state := {
  table : list rag_context;
  trace : list event;
}.

Definition emit (e : event) (st : state) : state :=
  {| table := table st; trace := trace st ++ [e] |}.

(** Modelled from the spec: [db.createRagContext] of [@/lib/db], which is
    not among the sources.  A RagContext row is created once per vector
    search call: the insert appends the row to the table, or raises and
    leaves the table as it is. *)
Definition createRagContext (w : world) (row : rag_context) (st : state)
    : outcome unit * state :=
  let st := emit (ContextInsert row) st in
  match insert_raises w with
  | Some message => (Raises message, st)
  | None => (Returns (), {| table := table st ++ [row]; trace := trace st |})
  end.

Definition buildContext (results : list VectorResult) : jsstring :=
  concat
    (imap (fun index result =>
             let meta := or_else (metadata result) (VObj []) in
             newline ++ newline ++ js "--- Source "
             ++ show_Z (Z.of_nat index + 1) ++ js " ---" ++ newline
             ++ js "Document: "
             ++ to_text (or_else (get (js "title") meta) (VStr (js "Unknown")))
             ++ newline ++ js "Page: "
             ++ to_text (or_else (get (js "page") meta) (VStr (js "Unknown")))
             ++ newline ++ js "Distance: " ++ toFixed4 (distance result)
             ++ newline ++ js "Content:" ++ newline
             ++ to_text (or_else (get (js "snippet") meta)
                                 (VStr (js "No content available")))
             ++ newline)
          results).

Definition compression_prompt (query : jsstring) (results : list VectorResult)
    : jsstring :=
  js "Compress this context for the query: " ++ dquote ++ query ++ dquote
  ++ newline ++ newline ++ js "RAW CONTEXT:" ++ newline
  ++ buildContext results ++ newline ++ newline
  ++ js "COMPRESSED SUMMARY (max 800 tokens):".

Definition format_source (index : nat) (result : VectorResult) : source :=
  let md := metadata result in
  {| src_doc_id := or_else (get_opt (js "doc_id") md) (VStr (js "unknown"));
     src_title :=
       or_else (get_opt (js "title") md) (VStr (js "Unknown Document"));
     src_page := or_else (get_opt (js "page") md) (VNum 0);
     src_s3_pdf_key := get_opt (js "s3_pdf_key") md;
     src_distance := distance result;
     src_url :=
       if truthy (get_opt (js "s3_pdf_key") md)
       then js "https://olympia-plans-raw.s3.us-west-2.amazonaws.com/"
            ++ to_text (get (js "s3_pdf_key") md) ++ js "#page="
            ++ to_text (or_else (get (js "page") md) (VNum 1))
       else js "#source-" ++ show_Z (Z.of_nat index + 1);
     src_content := or_else (get_opt (js "snippet") md) (VStr []);
     src_description :=
       to_text (get_opt (js "title") md) ++ js " - Page "
       ++ to_text (get_opt (js "page") md);
     src_source := js "City of Olympia Official Documents";
     src_relevanceScore := one_minus (distance result);
     src_toolType := js "olympia" |}.

Definition new_context_id (w : world) (reading : nat) : jsstring :=
  js "ctx_" ++ show_Z (now w reading) ++ js "_" ++ random36 w.

Definition no_results_text : jsstring :=
  js "I couldn't find any relevant information in the Olympia city planning documents for your query. Please try rephrasing your question or asking about a different topic.".

(** The [catch] of the handler. *)
Definition failed (w : world) (reading : nat) (message : jsstring) : response :=
  {| status := 500;
     json := ErrorBody (js "RAG query failed") (Some message)
               (Some (now w reading - now w 0)%Z) |}.

(** The query of a parsed body, after the validation of the handler:
    [inl] is the early answer (400, or the TypeError of the destructuring
    and of [trim] on a value that is not a string). *)
Definition validated_query (w : world) (request : outcome value)
    : response + (jsstring * value) :=
  match request with
  | Raises message => inl (failed w 1 message)
  | Returns (VNull as b) | Returns (VUndefined as b) =>
      inl (failed w 1
             (js "Cannot destructure property 'query' of 'body' as it is "
              ++ to_text b ++ js "."))
  | Returns b =>
      let query := get (js "query") b in
      if negb (truthy query) then
        inl {| status := 400;
               json := ErrorBody (js "Query parameter is required") None None |}
      else
        match query with
        | VStr q =>
            if bool_decide (trim q = []) then
              inl {| status := 400;
                     json := ErrorBody (js "Query parameter is required")
                               None None |}
            else inr (q, b)
        | _ => inl (failed w 1 (js "query.trim is not a function"))
        end
  end.

(** [POST] of /api/eco-rag: the request body as parsed by [req.json()],
    the state before; the response and the state after. *)
Definition POST (w : world) (request : outcome value) (st : state)
    : response * state :=
  match validated_query w request with
  | inl early => (early, st)
  | inr (query, b) =>
      let topK := match get (js "topK") b with
                  | VUndefined => VNum 5
                  | k => k
                  end in
      let sessionId := get (js "sessionId") b in
      if negb (has_api_key w) then
        ({| status := 500;
            json := ErrorBody (js "OpenAI API key not configured") None None |},
         st)
      else
        let st := emit (EmbeddingCall query) st in
        match embeddings_create w query with
        | Raises message => (failed w 1 message, st)
        | Returns queryEmbedding =>
            let st := emit (VectorQuery topK) st in
            match vectors_query w queryEmbedding topK with
            | Raises message => (failed w 1 message, st)
            | Returns [] =>
                ({| status := 200;
                    json := RagBody (new_context_id w 1) no_results_text []
                              query (now w 2 - now w 0)%Z 0 |}, st)
            | Returns results =>
                let prompt := compression_prompt query results in
                let st := emit (CompressionCall prompt) st in
                match chat_completion w prompt with
                | Raises message => (failed w 1 message, st)
                | Returns c =>
                    let sources := imap format_source results in
                    let processingTimeMs := (now w 1 - now w 0)%Z in
                    let contextId := new_context_id w 2 in
                    let st :=
                      if truthy sessionId then
                        snd (createRagContext w
                               {| ctx_id := contextId;
                                  ctx_sessionId := sessionId;
                                  ctx_query := query;
                                  ctx_results := results;
                                  ctx_rawContext := buildContext results;
                                  ctx_compressedSummary := summary c;
                                  ctx_sources := sources;
                                  ctx_tokenCount := tokenCount c |} st)
                      else st in
                    ({| status := 200;
                        json := RagBody contextId (summary c) sources query
                                  processingTimeMs (tokenCount c) |}, st)
                end
            end
        end
  end.

(** The earlier version of the handler, which asks for an answer instead
    of a compressed context and stores nothing. *)
Definition answer_prompt (query : jsstring) (context : jsstring) : jsstring :=
  js "Based on the following context from Olympia city planning documents, please answer this question:"
  ++ newline ++ newline ++ js "QUESTION: " ++ query ++ newline ++ newline
  ++ js "CONTEXT FROM CITY DOCUMENTS:" ++ newline ++ context
  ++ newline ++ newline
  ++ js "Please provide a comprehensive answer based on the context above. Cite specific documents and page numbers where relevant.".

Definition format_source_v1 (result : VectorResult) : source_v1 :=
  let md := metadata result in
  {| v1_doc_id := or_else (get_opt (js "doc_id") md) (VStr (js "unknown"));
     v1_title :=
       or_else (get_opt (js "title") md) (VStr (js "Unknown Document"));
     v1_page := or_else (get_opt (js "page") md) (VNum 0);
     v1_s3_pdf_key := get_opt (js "s3_pdf_key") md;
     v1_distance := distance result |}.

Definition POST_v1 (w : world) (request : outcome value) (st : state)
    : response * state :=
  match validated_query w request with
  | inl early => (early, st)
  | inr (query, b) =>
      let topK := match get (js "topK") b with
                  | VUndefined => VNum 5
                  | k => k
                  end in
      if negb (has_api_key w) then
        ({| status := 500;
            json := ErrorBody (js "OpenAI API key not configured") None None |},
         st)
      else
        let st := emit (EmbeddingCall query) st in
        match embeddings_create w query with
        | Raises message => (failed w 1 message, st)
        | Returns queryEmbedding =>
            let st := emit (VectorQuery topK) st in
            match vectors_query w queryEmbedding topK with
            | Raises message => (failed w 1 message, st)
            | Returns [] =>
                ({| status := 200;
                    json := AnswerBody no_results_text [] query
                              (now w 1 - now w 0)%Z |}, st)
            | Returns results =>
                let prompt := answer_prompt query (buildContext results) in
                let st := emit (CompressionCall prompt) st in
                match chat_completion w prompt with
                | Raises message => (failed w 1 message, st)
                | Returns c =>
                    ({| status := 200;
                        json :=
                          AnswerBody
                            (if bool_decide (summary c = [])
                             then js "I couldn't generate an answer."
                             else summary c)
                            (map format_source_v1 results) query
                            (now w 1 - now w 0)%Z |}, st)
                end
            end
        end
  end.

End Endpoint.

End EcoRag.

Export EcoRag.

(** ** The tools *)

Module Tools.

Section RAGSearch.

Context {number : Type}.
Variable toFixed4 : number -> jsstring.
Variable one_minus : number -> number.

Definition MAX_RAG_CALLS_PER_SESSION : nat := 4.

(** Modelled from the spec: the rows of the RagContext table that refer to
    a session, as [db.listRagContextsForSession] of [@/lib/db] (not among
    the sources) returns them: the rows stored with that session id. *)
Definition listRagContextsForSession (sessionId : value)
    (table : list (@rag_context number)) : list (@rag_context number) :=
  filter (fun row => value_eqb (ctx_sessionId row) sessionId = true) table.

(** Modelled from the spec: [db.countRagContextsForSession] of [@/lib/db]
    (not among the sources), the number of RagContext rows stored for the
    session. *)
Definition countRagContextsForSession (sessionId : value)
    (table : list (@rag_context number)) : nat :=
  length (listRagContextsForSession sessionId table).

Definition no_entry : jsstring := [9940%N].
Definition cross_mark : jsstring := [10060%N].
Definition warning_sign : jsstring := [9888%N; 65039%N].
Definition backtick : jsstring := [96%N].

(** [preview] of an existing context *)
Definition preview (compressed_summary : jsstring) : jsstring :=
  let text := substring0 500 compressed_summary
              ++ (if (500 <? len compressed_summary)%Z then js "..." else []) in
  if bool_decide (text = []) then js "No preview" else text.

Definition readable_entry (i : nat) (c : @rag_context number) : jsstring :=
  show_Z (Z.of_nat i + 1) ++ js ". Query: " ++ dquote ++ ctx_query c ++ dquote
  ++ newline ++ js "   Context ID: " ++ ctx_id c ++ newline
  ++ js "   Preview: " ++ substring0 200 (preview (ctx_compressedSummary c))
  ++ js "...".

Definition readableList (existingContexts : list (@rag_context number))
    : jsstring :=
  join (newline ++ newline) (imap readable_entry existingContexts).

Definition limit_message (existingContexts : list (@rag_context number))
    : jsstring :=
  no_entry ++ js " **STOP - RAG SEARCH LIMIT REACHED**" ++ newline ++ newline
  ++ js "This search was BLOCKED. You have used all "
  ++ show_Z (Z.of_nat MAX_RAG_CALLS_PER_SESSION)
  ++ js " RAG searches for this conversation." ++ newline ++ newline
  ++ js "**CRITICAL: Do NOT call olympiaRAGSearch again - it will always fail.**"
  ++ newline ++ newline
  ++ js "Instead, answer the user using your previous search results below:"
  ++ newline ++ newline ++ js "---" ++ newline ++ newline
  ++ readableList existingContexts
  ++ newline ++ newline ++ js "---" ++ newline ++ newline
  ++ js "**YOUR OPTIONS:**" ++ newline
  ++ js "1. Answer using the previews above (they contain key facts)" ++ newline
  ++ js "2. Call " ++ backtick ++ js "getRAGContext(" ++ dquote
  ++ js "context_id" ++ dquote ++ js ")" ++ backtick
  ++ js " for full details from any previous search" ++ newline
  ++ js "3. If data is insufficient, tell the user to start a new chat"
  ++ newline ++ newline
  ++ js "**NEVER call olympiaRAGSearch again in this conversation.**".

(** An element of [sourcesMinimal]. *)
Record minimal_source := {
  min_title : value;
  min_page : value;
  min_url : jsstring;
  min_relevanceScore : number;
  min_content : value;
  min_source : jsstring;
  min_toolType : jsstring;
}.

Definition minimal (s : @source number) : minimal_source :=
  {| min_title := src_title s; min_page := src_page s; min_url := src_url s;
     min_relevanceScore := src_relevanceScore s; min_content := src_content s;
     min_source := src_source s; min_toolType := src_toolType s |}.

(** The object that the tool serialises on success. *)
Record search_payload := {
  payload_context_id : jsstring;
  payload_brief : jsstring;
  payload_query : jsstring;
  payload_sources : list minimal_source;
  payload_resultCount : nat;
  payload_searchesRemaining : Z;
  payload_warning : jsstring;
  payload_note : jsstring;
}.

(** What [execute] returns: a plain text, or the JSON text of a payload
    ([JSON.stringify(payload, null, 2)]). *)
Inductive tool_result :=
| Text (s : jsstring)
| SearchJson (payload : search_payload).

Definition searchWarning (remainingSearches : Z) : jsstring :=
  if (remainingSearches <=? 0)%Z then
    no_entry ++ js " NO MORE SEARCHES ALLOWED. Use getRAGContext for follow-up queries."
  else if (remainingSearches =? 1)%Z then
    warning_sign ++ js " LAST SEARCH REMAINING. Make it comprehensive!"
  else show_Z remainingSearches ++ js " searches remaining.".

Definition search_error (message : jsstring) : tool_result :=
  Text (cross_mark ++ js " Error searching Olympia documents: " ++ message).

(** What surrounds one tool call besides the endpoint's own world: whether
    [fetch] reaches the endpoint, whether [track] raises. *)
Record tool_world := {
  endpoint : @world number;
  fetch_raises : option jsstring;
  track_raises : option jsstring;
}.

(** The body that the tool posts, as the endpoint parses it.  [sessionId]
    is what the chat handler read from its own parsed request body: JSON
    data, which the serialisation hands over as it is, or [undefined],
    which [JSON.stringify] leaves out. *)
Definition request_body (query : jsstring) (topK : value) (sessionId : value)
    : value :=
  VObj ([(js "query", VStr query); (js "topK", topK)]
        ++ match sessionId with
           | VUndefined => []
           | _ => [(js "sessionId", sessionId)]
           end).

(** [execute] of [olympiaRAGSearch]; [sessionId] comes from
    [experimental_context].  [fetch] is the call of the handler above;
    [response.ok] holds exactly when the body is the retrieval result, the
    error bodies coming with status 400 or 500. *)
Definition olympiaRAGSearch (w : tool_world) (query : jsstring) (topK : value)
    (sessionId : value) (st : @state number) : tool_result * @state number :=
  let blocked :=
    if truthy sessionId then
      if MAX_RAG_CALLS_PER_SESSION
         <=? countRagContextsForSession sessionId (table st)
      then Some (limit_message (listRagContextsForSession sessionId (table st)))
      else None
    else None in
  match blocked with
  | Some message => (Text message, st)
  | None =>
      match fetch_raises w with
      | Some message => (search_error message, st)
      | None =>
          let '(response, st) :=
            POST toFixed4 one_minus (endpoint w)
                 (Returns (request_body query topK sessionId)) st in
          match json response with
          | RagBody context_id compressed_summary sources _ _ _ =>
              match track_raises w with
              | Some message => (search_error message, st)
              | None =>
                  let sourcesMinimal := map minimal sources in
                  let briefSummary :=
                    if bool_decide (compressed_summary = [])
                    then js "No summary available"
                    else substring0 6000 compressed_summary
                         ++ (if (6000 <? len compressed_summary)%Z
                             then js "..." else []) in
                  let remainingSearches :=
                    if truthy sessionId then
                      (Z.of_nat MAX_RAG_CALLS_PER_SESSION
                       - Z.of_nat (countRagContextsForSession sessionId
                                     (table st)))%Z
                    else Z.of_nat MAX_RAG_CALLS_PER_SESSION in
                  (SearchJson
                     {| payload_context_id := context_id;
                        payload_brief := briefSummary;
                        payload_query := query;
                        payload_sources := sourcesMinimal;
                        payload_resultCount := length sourcesMinimal;
                        payload_searchesRemaining := remainingSearches;
                        payload_warning := searchWarning remainingSearches;
                        payload_note :=
                          js "Full context (up to 8000 tokens) stored. Use getRAGContext("
                          ++ dquote ++ context_id ++ dquote
                          ++ js ") for complete details if needed." |},
                   st)
              end
          | ErrorBody error details _ =>
              (search_error (default error
                               (match details with
                                | Some d => if bool_decide (d = []) then None
                                            else Some d
                                | None => None
                                end)), st)
          | AnswerBody _ _ _ _ => (search_error [], st)
          end
      end
  end.

(** A sequence of tool calls, one after the other. *)
Record call := {
  call_world : tool_world;
  call_query : jsstring;
  call_topK : value;
  call_sessionId : value;
}.

Definition run_call (c : call) (st : @state number) : @state number :=
  snd (olympiaRAGSearch (call_world c) (call_query c) (call_topK c)
         (call_sessionId c) st).

Definition run_calls (calls : list call) (st : @state number) : @state number :=
  fold_left (fun st c => run_call c st) calls st.

End RAGSearch.

(** *** generateImage *)

(** [result.data[0]] of the image API. *)
Record generated := {
  b64_json : value;
  revised_prompt : value;
}.

(** The row passed to [db.createImage]. *)
Record image_row := {
  image_id : jsstring;
  image_session_id : value;
  image_prompt : jsstring;
  image_revised_prompt : value;
  image_size : value;
  image_quality : value;
  image_background : value;
  image_title : value;
  image_data : value;
  image_owner : value + jsstring;
}.

Record image_world := {
  openai_api_key : bool;
  images_generate : jsstring -> value -> value -> value -> outcome (list generated);
  randomUUID : jsstring;
  createImage_raises : option jsstring;
  image_track_raises : option jsstring;
  executionTime : Z;
}.

Record image_args := {
  arg_prompt : jsstring;
  arg_size : value;
  arg_quality : value;
  arg_background : value;
  arg_title : value;
}.

Definition image_error (message : jsstring) : value :=
  VStr (cross_mark ++ js " **Image Generation Error**: "
        ++ (if bool_decide (message = []) then js "Unknown error occurred"
            else message)
        ++ js ". Please try again with a different prompt or lower quality settings.").

Definition display_instructions (imageId : jsstring) : jsstring :=
  js "IMPORTANT: Display this image in your response using this EXACT markdown syntax:"
  ++ newline ++ newline ++ js "![image](image:" ++ imageId ++ js ")"
  ++ newline ++ newline
  ++ js "Do not use any other format. The image is saved in the database and will be loaded automatically.".

(** The rest of [execute] once [openai.images.generate] has settled:
    the value returned to the model and the row stored, if any.  The usage
    tracking of pay-per-use sessions sits in a try of its own and leaves
    both alone. *)
Definition generateImage_finish (w : image_world) (a : image_args)
    (userId sessionId : value) (generation : outcome (list generated))
    : value * option image_row :=
  match generation with
  | Raises message => (image_error message, None)
  | Returns [] =>
      (VStr (cross_mark
             ++ js " **Error**: No image was generated. Please try again with a different prompt."),
       None)
  | Returns (first :: _) =>
      let imageBase64 := b64_json first in
      let revisedPrompt := or_else (revised_prompt first) (VStr (arg_prompt a)) in
      if negb (truthy imageBase64) then
        (VStr (cross_mark ++ js " **Error**: Failed to retrieve image data."),
         None)
      else
        let size := or_else (arg_size a) (VStr (js "1024x1024")) in
        let quality := or_else (arg_quality a) (VStr (js "medium")) in
        let background := or_else (arg_background a) (VStr (js "opaque")) in
        let row :=
          {| image_id := randomUUID w;
             image_session_id := or_else sessionId VNull;
             image_prompt := arg_prompt a;
             image_revised_prompt := revisedPrompt;
             image_size := size;
             image_quality := quality;
             image_background := background;
             image_title := or_else (arg_title a) VUndefined;
             image_data := imageBase64;
             image_owner := if truthy userId then inl userId
                            else inr (js "anonymous") |} in
        let '(imageId, stored) :=
          match createImage_raises w with
          | Some _ => (None, None)
          | None => (Some (randomUUID w), Some row)
          end in
        match image_track_raises w with
        | Some message => (image_error message, stored)
        | None =>
            (VObj
               [(js "success", VBool true);
                (js "imageId",
                 match imageId with Some i => VStr i | None => VUndefined end);
                (js "imageUrl",
                 match imageId with
                 | Some i => VStr (js "/api/images/" ++ i)
                 | None => VUndefined
                 end);
                (js "prompt", VStr (arg_prompt a));
                (js "revisedPrompt", revisedPrompt);
                (js "size", size);
                (js "quality", quality);
                (js "background", background);
                (js "title", or_else (arg_title a) (VStr (js "Generated Image")));
                (js "executionTime", VNum (executionTime w));
                (js "_instructions",
                 VStr match imageId with
                      | Some i => display_instructions i
                      | None =>
                          js "Image generated successfully but could not be saved to database."
                      end)],
             stored)
        end
  end.


(** [execute] of [generateImage]. *)
Definition generateImage (w : image_world) (a : image_args)
    (userId sessionId : value) : value * option image_row :=
  if negb (openai_api_key w) then
    (VStr (cross_mark
           ++ js " **Configuration Error**: OpenAI API key is not configured."),
     None)
  else
    generateImage_finish w a userId sessionId
      (images_generate w (arg_prompt a)
         (or_else (arg_size a) (VStr (js "1024x1024")))
         (or_else (arg_quality a) (VStr (js "medium")))
         (or_else (arg_background a) (VStr (js "opaque")))).

End Tools.

Export Tools.

(** ** More of the chat route handler and of the tools *)

Module Counting.

(** [isUserInitiated] of the chat handler: the last message is a user
    message and it is the only user message. *)
Definition isUserInitiated (messages : list message) : bool :=
  let isUserMessage :=
    match last messages with
    | Some lastMessage => is_user lastMessage
    | None => false
    end in
  let userMessageCount := length (filter (fun m => is_user m = true) messages) in
  isUserMessage && (userMessageCount =? 1).

(** The parts that the request filters and the reload let through, by
    type: whatever is not an object, text parts and tool parts. *)
Definition allowed_part (part : value) : bool :=
  negb (is_object part)
  || str_eq (get (js "type") part) (js "text")
  || str_startsWith (get (js "type") part) (js "tool-").

(** A [tool-generateImage] part whose result object still has a truthy
    [imageData]. *)
Definition carries_image_data (part : value) : bool :=
  str_eq (get (js "type") part) (js "tool-generateImage")
  && match get (js "result") part with
     | VObj rfs => truthy (field (js "imageData") rfs)
     | _ => false
     end.

(** Inside [v], no array holds a string starting with [rs_]. *)
Fixpoint no_rs_elements (v : value) : bool :=
  match v with
  | VArr xs =>
      forallb (fun x => negb (str_startsWith x (js "rs_")) && no_rs_elements x) xs
  | VObj fs => forallb (fun kx => no_rs_elements (snd kx)) fs
  | _ => true
  end.

End Counting.

Export Counting.

Module CSV.

(** The cell includes a comma, a double quote or a line feed. *)
Definition needs_quoting (cell : jsstring) : bool :=
  existsb (fun c => (c =? 44) || (c =? 34) || (c =? 10))%N cell.

(** Every double quote of the cell is written twice (the global
    [replace] of the source). *)
Definition double_quotes (cell : jsstring) : jsstring :=
  flat_map (fun c => if (c =? 34)%N then [34; 34]%N else [c]) cell.

Definition escape_cell (cell : jsstring) : jsstring :=
  if needs_quoting cell then dquote ++ double_quotes cell ++ dquote else cell.

Definition csvContent (headers : list jsstring) (rows : list (list jsstring))
    : jsstring :=
  join newline
    (join (js ",") headers
     :: map (fun row => join (js ",") (map escape_cell row)) rows).

Record csv_args := {
  csv_title : jsstring;
  csv_description : value;
  csv_headers : list jsstring;
  csv_rows : list (list jsstring);
}.

(** The row passed to [db.createCSV]. *)
Record csv_row := {
  stored_csv_id : jsstring;
  stored_csv_session : value;
  stored_csv_title : jsstring;
  stored_csv_description : value;
  stored_csv_headers : list jsstring;
  stored_csv_rows : list (list jsstring);
  stored_csv_owner : value + jsstring;
}.

Record csv_world := {
  csv_uuid : jsstring;
  createCSV_raises : option jsstring;
  csv_track_raises : option jsstring;
}.

Definition strings (xs : list jsstring) : value := VArr (map VStr xs).

Definition invalidRows (a : csv_args) : list (list jsstring) :=
  filter (fun row => length row <> length (csv_headers a)) (csv_rows a).

Definition csv_instructions (csvId : jsstring) : jsstring :=
  js "IMPORTANT: Include this EXACT line in your markdown response to display the table:"
  ++ newline ++ newline ++ js "![csv](csv:" ++ csvId ++ js ")"
  ++ newline ++ newline
  ++ js "Do not write [View Table] or any other text - use the image syntax above.".

(** [execute] of [createCSV]: the value returned and the row stored. *)
Definition createCSV (w : csv_world) (a : csv_args) (userId sessionId : value)
    : value * option csv_row :=
  let headerCount := length (csv_headers a) in
  match invalidRows a with
  | _ :: _ =>
      (VObj
         [(js "error", VBool true);
          (js "message",
           VStr (cross_mark ++ js " **CSV Validation Error**: All rows must have "
                 ++ show_Z (Z.of_nat headerCount)
                 ++ js " columns to match headers. Found "
                 ++ show_Z (Z.of_nat (length (invalidRows a)))
                 ++ js " invalid row(s). Please regenerate the CSV with matching column counts."));
          (js "title", VStr (csv_title a));
          (js "headers", strings (csv_headers a));
          (js "expectedColumns", VNum (Z.of_nat headerCount));
          (js "invalidRowCount", VNum (Z.of_nat (length (invalidRows a))))],
       None)
  | [] =>
      let row :=
        {| stored_csv_id := csv_uuid w;
           stored_csv_session := or_else sessionId VNull;
           stored_csv_title := csv_title a;
           stored_csv_description := or_else (csv_description a) VUndefined;
           stored_csv_headers := csv_headers a;
           stored_csv_rows := csv_rows a;
           stored_csv_owner := if truthy userId then inl userId
                               else inr (js "anonymous") |} in
      let '(csvId, stored) :=
        match createCSV_raises w with
        | Some _ => (None, None)
        | None => (Some (csv_uuid w), Some row)
        end in
      match csv_track_raises w with
      | Some message =>
          (VObj
             [(js "error", VBool true);
              (js "message",
               VStr (cross_mark ++ js " **CSV Creation Error**: "
                     ++ (if bool_decide (message = [])
                         then js "Unknown error occurred" else message)));
              (js "title", VStr (csv_title a))],
           stored)
      | None =>
          (VObj
             [(js "title", VStr (csv_title a));
              (js "description", csv_description a);
              (js "headers", strings (csv_headers a));
              (js "rows", VArr (map strings (csv_rows a)));
              (js "csvContent", VStr (csvContent (csv_headers a) (csv_rows a)));
              (js "rowCount", VNum (Z.of_nat (length (csv_rows a))));
              (js "columnCount", VNum (Z.of_nat headerCount));
              (js "csvId",
               match csvId with Some i => VStr i | None => VUndefined end);
              (js "csvUrl",
               match csvId with
               | Some i => VStr (js "/api/csvs/" ++ i)
               | None => VUndefined
               end);
              (js "_instructions",
               match csvId with
               | Some i => VStr (csv_instructions i)
               | None => VUndefined
               end)],
           stored)
      end
  end.

End CSV.

Export CSV.

Module Sandbox.

(** [s.includes(x)], decided. *)
Fixpoint includesb (s x : jsstring) : bool :=
  startsWith s x
  || match s with
     | [] => false
     | _ :: rest => includesb rest x
     end.

(** What [sandbox.process.codeRun] gives. *)
Record execution := {
  exitCode : Z;
  result : value;
}.

Record sandbox_world := {
  daytona_api_key : bool;
  daytona_api_url : bool;
  create_sandbox : outcome unit;
  codeRun : jsstring -> outcome execution;
  code_track_raises : option jsstring;
  delete_raises : option jsstring;
  elapsed : Z;
}.

(** The calls made to the sandbox service. *)
Inductive sandbox_event :=
| SandboxCreate
| CodeRun (code : jsstring)
| SandboxDelete.

Definition no_entry_sign : jsstring := [55357%N; 57003%N].
Definition snake : jsstring := [55357%N; 56333%N].
Definition stopwatch : jsstring := [9201%N; 65039%N].
Definition fence : jsstring := js "```".

(** The outer [catch]. *)
Definition execution_failed (message : jsstring) : jsstring :=
  let errorMessage :=
    if bool_decide (message = []) then js "Unknown error occurred"
    else message in
  if includesb errorMessage (js "<!doctype")
     || includesb errorMessage (js "<html")
     || includesb errorMessage (js "Framer")
  then
    cross_mark
    ++ js " **Daytona API Error**: The Daytona service returned an error page instead of a response. This usually means:"
    ++ newline ++ js "- Rate limit exceeded on Daytona's free tier"
    ++ newline ++ js "- API key is invalid or expired"
    ++ newline ++ js "- Service is temporarily unavailable"
    ++ newline ++ newline
    ++ js "Please check your Daytona dashboard at https://app.daytona.io to verify your account status."
  else cross_mark ++ js " **Error**: " ++ errorMessage.

Definition execution_report (w : sandbox_world) (code : jsstring)
    (description : value) (e : execution) : jsstring :=
  snake ++ js " **Python Code Execution**" ++ newline
  ++ (if truthy description
      then js "**Description**: " ++ to_text description ++ newline else [])
  ++ newline ++ newline ++ fence ++ js "python" ++ newline ++ code ++ newline
  ++ fence ++ newline ++ newline ++ js "**Output:**" ++ newline ++ fence
  ++ newline
  ++ to_text (or_else (result e) (VStr (js "(No output produced)")))
  ++ newline ++ fence ++ newline ++ newline ++ stopwatch
  ++ js " **Execution Time**: " ++ show_Z (elapsed w) ++ js "ms".

(** [execute] of [codeExecution]: the text returned and the calls made to
    the sandbox service, in order.  The [finally] deletes the sandbox
    whenever one was created, and swallows what the deletion raises. *)
Definition codeExecution (w : sandbox_world) (code : jsstring)
    (description : value) : jsstring * list sandbox_event :=
  if (10000 <? len code)%Z then
    (no_entry_sign
     ++ js " **Error**: Code too long. Please limit your code to 10,000 characters.",
     [])
  else if negb (daytona_api_key w) then
    (cross_mark ++ js " **Configuration Error**: Daytona API key is not configured.",
     [])
  else if negb (daytona_api_url w) then
    (cross_mark
     ++ js " **Configuration Error**: Daytona API URL is not configured. Set DAYTONA_API_URL in your environment.",
     [])
  else
    match create_sandbox w with
    | Raises message => (execution_failed message, [SandboxCreate])
    | Returns _ =>
        let events := [SandboxCreate; CodeRun code; SandboxDelete] in
        match codeRun w code with
        | Raises message => (execution_failed message, events)
        | Returns e =>
            match code_track_raises w with
            | Some message => (execution_failed message, events)
            | None =>
                if negb (exitCode e =? 0)%Z then
                  (cross_mark ++ js " **Execution Error**: "
                   ++ to_text (or_else (result e) (VStr (js "Unknown error"))),
                   events)
                else (execution_report w code description e, events)
            end
        end
    end.

End Sandbox.

Export Sandbox.

(** ** Sample data *)

Module Samples.

Definition text_part (t : jsstring) : value :=
  VObj [(js "type", VStr (js "text")); (js "text", VStr t)].

Definition msg_long : message :=
  [(js "id", VStr (js "m1")); (js "role", VStr (js "user"));
   (js "parts",
    VArr [text_part (js "aaaaaaaaaaaaaaaaaaaaaaaaaaaaaaaaaaaaaaaaaaaaaaaa")])].

Definition msg_short : message :=
  [(js "id", VStr (js "m2")); (js "role", VStr (js "assistant"));
   (js "parts", VArr [text_part (js "ok")])].

Definition part_with_ids : value :=
  VObj [(js "type", VStr (js "text")); (js "text", VStr (js "hi"));
        (js "responseId", VStr (js "resp_1"));
        (js "ids", VArr [VStr (js "rs_1"); VStr (js "x")])].

Definition pending_tool_part : value :=
  VObj [(js "type", VStr (js "tool-webSearch"));
        (js "toolCallId", VStr (js "call_1"));
        (js "state", VStr (js "input-available"));
        (js "input", VObj [(js "query", VStr (js "olympia"))])].

Definition msg_user_tool : message :=
  [(js "id", VStr (js "u1")); (js "role", VStr (js "user"));
   (js "parts", VArr [text_part (js "hi"); pending_tool_part])].

Definition image_part : value :=
  VObj [(js "type", VStr (js "tool-generateImage"));
        (js "toolCallId", VStr (js "call_2"));
        (js "result",
         VObj [(js "success", VBool true);
               (js "imageId", VStr (js "img-7"));
               (js "imageData", VStr (js "iVBORw0KGgo="))])].

Definition msg_assistant_image : message :=
  [(js "id", VStr (js "a1")); (js "role", VStr (js "assistant"));
   (js "parts", VArr [text_part (js "done"); pending_tool_part; image_part])].


Definition stored_row : db_message :=
  {| db_id := VStr (js "d1"); db_role := VStr (js "assistant");
     db_content :=
       VArr [text_part (js "earlier"); pending_tool_part;
             VObj [(js "type", VStr (js "reasoning"))]; part_with_ids] |}.

Definition sample_result : @VectorResult Z :=
  {| key := js "plan#3"; distance := 2%Z;
     metadata := VObj [(js "title", VStr (js "Plan")); (js "page", VNum 3);
                       (js "snippet", VStr (js "Sea level"))] |}.

Definition sample_world : @world Z :=
  {| has_api_key := true;
     embeddings_create := fun _ => Returns [1; 2]%Z;
     vectors_query := fun _ _ => Returns [sample_result];
     chat_completion :=
       fun _ => Returns {| summary := js "Sea level rises."; tokenCount := 5 |};
     insert_raises := None;
     now := fun reading => (1000 + 10 * Z.of_nat reading)%Z;
     random36 := js "k3x9q0abc" |}.

Definition sample_request : outcome value :=
  Returns (VObj [(js "query", VStr (js "sea level")); (js "topK", VNum 8);
                 (js "sessionId", VStr (js "s1"))]).

Definition blank_request : obj :=
  [(js "query", VStr (js "   ")); (js "sessionId", VStr (js "s1"))].

Definition empty_state : @state Z := {| table := []; trace := [] |}.

Definition sample_tool_world : @tool_world Z :=
  {| endpoint := sample_world; fetch_raises := None; track_raises := None |}.

Definition sample_call : @call Z :=
  {| call_world := sample_tool_world; call_query := js "sea level";
     call_topK := VNum 8; call_sessionId := VStr (js "s1") |}.


(** No sample holds a text with a [length] property that is a string or
    an array, so the conversion of strings to numbers is never consulted
    on the samples; they run with one that answers NaN. *)
Definition no_conversion : jsstring -> jsnum := fun _ => NaN.


Definition reasoning_part : value :=
  VObj [(js "type", VStr (js "reasoning"));
        (js "text", VStr (js "The user asks about parks."))].

Definition msg_assistant_reasoning : message :=
  [(js "id", VStr (js "a3")); (js "role", VStr (js "assistant"));
   (js "parts", VArr [reasoning_part; text_part (js "Parks are open.")])].





End Samples.

Import Samples.

Module MoreSamples.

Definition sample_csv : csv_args :=
  {| csv_title := js "Budget";
     csv_description := VUndefined;
     csv_headers := [js "Item"; js "Cost"];
     csv_rows := [[js "Parks, trails"; js "12"]; [js "Water"; js "7"]] |}.

Definition ragged_csv : csv_args :=
  {| csv_title := js "Budget";
     csv_description := VUndefined;
     csv_headers := [js "Item"; js "Cost"];
     csv_rows := [[js "Parks"; js "12"]; [js "Water"]] |}.

Definition sample_csv_world : csv_world :=
  {| csv_uuid := js "csv-1"; createCSV_raises := None;
     csv_track_raises := None |}.

Definition sample_sandbox : sandbox_world :=
  {| daytona_api_key := true; daytona_api_url := true;
     create_sandbox := Returns ();
     codeRun := fun _ => Raises (js "<html>rate limit</html>");
     code_track_raises := None; delete_raises := Some (js "gone");
     elapsed := 12 |}.

End MoreSamples.

Import MoreSamples.

(* ===================================================================== *)
(** * Properties *)

(** ** Token estimates and trimMessages *)

Section TrimMessages.

Variable ceil_quarter_of_string : jsstring -> jsnum.

#[local] Abbreviation estimateMessageTokens :=
  (estimateMessageTokens ceil_quarter_of_string).
#[local] Abbreviation total_tokens := (total_tokens ceil_quarter_of_string).
#[local] Abbreviation trimMessages := (trimMessages ceil_quarter_of_string).

Lemma num_add_0_l (a : jsnum) : num_add (Num 0) a = a.
Proof. by destruct a. Qed.


Lemma num_le_not_gt (a : jsnum) (b : Z) :
  num_le a b = true -> num_gt a b = false.
Proof.
  destruct a; simpl; try done. intros H.
  apply Z.leb_le in H. destruct (Z.gtb_spec n b); [lia|done].
Qed.

Lemma num_le_Num (a : jsnum) (b : Z) :
  num_le a b = true -> a <> NegInf -> exists z, a = Num z /\ (z <= b)%Z.
Proof.
  destruct a; simpl; try done. intros H _. exists n. split; [done|].
  by apply Z.leb_le.
Qed.

Lemma num_gt_mono (a : jsnum) (small large : Z) :
  (small <= large)%Z -> num_gt a small = false -> num_gt a large = false.
Proof.
  intros Hle. destruct a; simpl; try done. intros H.
  destruct (Z.gtb_spec n small); [done|]. destruct (Z.gtb_spec n large); [lia|done].
Qed.

Lemma estimateTokens_nonneg (text : jsstring) : (0 <= estimateTokens text)%Z.
Proof. unfold estimateTokens, len. apply Z.div_pos; lia. Qed.

Lemma estimateTokens_pos (text : jsstring) :
  2 <= length text -> (0 < estimateTokens text)%Z.
Proof.
  intros Hlen. unfold estimateTokens, len.
  apply Z.div_str_pos. lia.
Qed.

Lemma stringify_obj_length (fs : obj) :
  exists t, stringify (VObj fs) = Some t /\ 2 <= length t.
Proof.
  eexists. split; [reflexivity|].
  rewrite !length_app. simpl. lia.
Qed.

(** An estimate is NaN, infinite, or an integer that is 1 at least: what
    is 10 or less is replaced by the estimate of the whole message. *)
Lemma estimateMessageTokens_range (msg : message) :
  estimateMessageTokens msg = NaN \/ estimateMessageTokens msg = PosInf \/
  exists z, estimateMessageTokens msg = Num z /\ (1 <= z)%Z.
Proof.
  unfold Chat.estimateMessageTokens.
  set (tokens := match field (js "parts") msg with VArr _ => _ | _ => _ end).
  assert (Hwhole : exists z,
            Num (estimateTokens (default [] (stringify (VObj msg)))) = Num z
            /\ (1 <= z)%Z).
  { destruct (stringify_obj_length msg) as (t & -> & Hlen).
    eexists. split; [done|]. simpl. pose proof (estimateTokens_pos t Hlen). lia. }
  destruct tokens as [t| | |]; simpl; auto.
  destruct (Z.leb_spec t 10); auto. right. right. exists t. split; [done|lia].
Qed.

(** The estimate of a part whose text, if it is a text part, is a string. *)
Lemma estimatePartTokens_string (part : value) :
  text_is_string part = true ->
  exists z, estimatePartTokens ceil_quarter_of_string part = Num z /\ (0 <= z)%Z.
Proof.
  unfold text_is_string, estimatePartTokens.
  destruct part as [| | | |s|xs|pfs]; simpl;
    try (intros _; eexists; split; [done|]; try lia; apply estimateTokens_nonneg).
  destruct (str_eq (field (js "type") pfs) (js "text")
            && truthy (field (js "text") pfs)).
  - destruct (field (js "text") pfs) as [| | | |t| |]; try done.
    intros _. exists (estimateTokens t). split; [done|apply estimateTokens_nonneg].
  - intros _. eexists. split; [done|apply estimateTokens_nonneg].
Qed.

Lemma fold_estimate_string (parts : list value) (start : Z) :
  forallb text_is_string parts = true ->
  exists z,
    fold_left (fun tokens part =>
                 num_add tokens (estimatePartTokens ceil_quarter_of_string part))
              parts (Num start) = Num z /\ (start <= z)%Z.
Proof.
  revert start. induction parts as [|p parts IH]; intros start Hs; simpl.
  - exists start. split; [done|lia].
  - simpl in Hs. apply andb_prop in Hs as [Hp Hps].
    destruct (estimatePartTokens_string p Hp) as (t & -> & Ht). simpl.
    destruct (IH (start + t)%Z Hps) as (z & -> & Hz). exists z. split; [done|lia].
Qed.

(** When every text part holds a string, the estimate is an integer. *)
Lemma estimateMessageTokens_string (msg : message) :
  string_texts msg = true ->
  exists z, estimateMessageTokens msg = Num z /\ (1 <= z)%Z.
Proof.
  intros Hs.
  destruct (estimateMessageTokens_range msg) as [Hnan|[Hinf|Hnum]]; [| |done];
    exfalso; revert Hnan || revert Hinf.
  all: unfold Chat.estimateMessageTokens, string_texts in *.
  all: destruct (field (js "parts") msg) as [| | | | |parts|]; try done.
  all: destruct (fold_estimate_string parts 4 Hs) as (z & -> & _); simpl.
  all: by destruct (z <=? 10)%Z.
Qed.

Lemma total_tokens_cons (x : message) (xs : list message) :
  total_tokens (x :: xs) = num_add (total_tokens xs) (estimateMessageTokens x).
Proof. reflexivity. Qed.

(** A total that is an integer is the sum of integers, each 1 at least:
    the total of a suffix is an integer too, and not larger. *)
Lemma total_tokens_suffix (front back : list message) (z : Z) :
  total_tokens (front ++ back) = Num z ->
  exists b, total_tokens back = Num b /\ (b <= z)%Z.
Proof.
  revert z. induction front as [|x front IH]; intros z; cbn [app].
  - intros ->. exists z. split; [done|lia].
  - rewrite total_tokens_cons.
    destruct (total_tokens (front ++ back)) as [a| | |] eqn:Hrest;
      destruct (estimateMessageTokens_range x) as [Hx|[Hx|(t & Hx & Ht)]];
      rewrite Hx; simpl; try done.
    intros [= <-]. destruct (IH a eq_refl) as (b & Hb & Hle).
    exists b. split; [done|lia].
Qed.


Lemma total_tokens_not_NegInf (messages : list message) :
  total_tokens messages <> NegInf.
Proof.
  induction messages as [|x xs IH]; [done|].
  rewrite total_tokens_cons.
  destruct (estimateMessageTokens_range x) as [->|[->|(t & -> & _)]];
    by destruct (total_tokens xs).
Qed.

(** Without a NaN estimate the total is an integer or infinite. *)
Lemma total_tokens_range (messages : list message) :
  Forall (fun x => estimateMessageTokens x <> NaN) messages ->
  total_tokens messages = PosInf \/
  exists z, total_tokens messages = Num z /\ (0 <= z)%Z.
Proof.
  induction 1 as [|x xs Hx _ IH].
  - right. exists 0%Z. split; [done|lia].
  - rewrite total_tokens_cons.
    destruct (estimateMessageTokens_range x) as [Hn|[->|(t & -> & Ht)]]; [done| |];
      destruct IH as [->|(z & -> & Hz)]; simpl; auto.
    right. exists (z + t)%Z. split; [done|lia].
Qed.

(** *** trimMessages *)

(** What the backwards loop computes, whatever the estimates: it splits
    the messages it is given into a dropped prefix and a kept suffix; the
    budget test did not stop the loop at any kept message, and it stopped
    the loop at the message just before them, if any. *)
Lemma keep_recent_split (earlier kept : list message) (maxTokens : Z) :
  exists pre suf,
    earlier = pre ++ suf /\
    keep_recent
      (rev (map (fun msg => (msg, estimateMessageTokens msg)) earlier))
      maxTokens (total_tokens kept) kept
      = suf ++ kept /\
    (forall s1 x s2, suf = s1 ++ x :: s2 ->
       num_gt (total_tokens (x :: s2 ++ kept)) maxTokens = false) /\
    (forall pre' y, pre = pre' ++ [y] ->
       num_gt (total_tokens (y :: suf ++ kept)) maxTokens = true).
Proof.
  revert kept. induction earlier as [|x earlier IH] using rev_ind; intros kept.
  - exists [], []. simpl. split; [done|]. split; [done|]. split.
    + intros s1 x s2 Hs. by destruct s1.
    + intros pre' y Hpre. by destruct pre'.
  - rewrite map_app, rev_app_distr. simpl.
    destruct (num_gt (num_add (total_tokens kept) (estimateMessageTokens x))
                maxTokens) eqn:Hstop.
    + exists (earlier ++ [x]), []. rewrite app_nil_r. simpl.
      split; [done|]. split; [done|]. split.
      * intros s1 y s2 Hs. by destruct s1.
      * intros pre' y Hpre. apply app_inj_tail in Hpre as [_ <-]. exact Hstop.
    + destruct (IH (x :: kept)) as (pre & suf & -> & Hres & Hpass & Hstop').
      exists pre, (suf ++ [x]).
      rewrite total_tokens_cons in Hres. rewrite Hres, <- !app_assoc. simpl.
      split; [done|]. split; [done|]. split.
      * intros s1 y s2 Hs.
        destruct s2 as [|z s2 _] using rev_ind.
        -- apply app_inj_tail in Hs as [_ <-]. exact Hstop.
        -- change (s1 ++ y :: s2 ++ [z]) with (s1 ++ (y :: s2) ++ [z]) in Hs.
           rewrite app_assoc in Hs. apply app_inj_tail in Hs as [-> <-].
           rewrite <- app_assoc. simpl. by eapply Hpass.
      * intros pre' y Hpre. exact (Hstop' pre' y Hpre).
Qed.

(** Messages at none of which the budget test stops the loop are kept. *)
Lemma keep_recent_all (suf kept : list message) (maxTokens : Z) :
  (forall s1 x s2, suf = s1 ++ x :: s2 ->
     num_gt (total_tokens (x :: s2 ++ kept)) maxTokens = false) ->
  keep_recent (rev (map (fun msg => (msg, estimateMessageTokens msg)) suf))
    maxTokens (total_tokens kept) kept
  = suf ++ kept.
Proof.
  intros Hpass.
  destruct (keep_recent_split suf kept maxTokens)
    as (pre & suf' & Hsplit & Hres & _ & Hstop).
  destruct pre as [|y pre _] using rev_ind; [by rewrite Hres, Hsplit|].
  specialize (Hstop pre y eq_refl).
  rewrite <- app_assoc in Hsplit. simpl in Hsplit.
  by rewrite (Hpass pre y suf' Hsplit) in Hstop.
Qed.

Lemma trimMessages_nonempty (messages : list message) (maxTokens : Z) :
  messages <> [] ->
  trimMessages messages maxTokens <> [].
Proof.
  intros Hne. unfold Chat.trimMessages. destruct messages as [|first rest]; [done|].
  destruct (keep_recent _ _ _ _); [|done].
  by destruct (find _ _).
Qed.

(** The two ways in which [trimMessages] answers for a non-empty history:
    the suffix that the loop kept, or the emergency fallback. *)
Lemma trimMessages_cases (msgs : list message) (m : message) (maxTokens : Z) :
  exists pre suf,
    msgs ++ [m] = pre ++ suf /\
    (forall s1 x s2, suf = s1 ++ x :: s2 ->
       num_gt (total_tokens (x :: s2)) maxTokens = false) /\
    (forall pre' y, pre = pre' ++ [y] ->
       num_gt (total_tokens (y :: suf)) maxTokens = true) /\
    ((suf <> [] /\ trimMessages (msgs ++ [m]) maxTokens = suf) \/
     (suf = [] /\
      trimMessages (msgs ++ [m]) maxTokens =
        match find is_user (rev (msgs ++ [m])) with
        | Some lastUser => [lastUser]
        | None => [m]
        end)).
Proof.
  destruct (keep_recent_split (msgs ++ [m]) [] maxTokens)
    as (pre & suf & Hsplit & Hres & Hpass & Hstop).
  exists pre, suf. split; [done|]. split; [|split].
  - intros s1 x s2 Hs. specialize (Hpass s1 x s2 Hs). by rewrite app_nil_r in Hpass.
  - intros pre' y Hpre. specialize (Hstop pre' y Hpre).
    by rewrite app_nil_r in Hstop.
  - rewrite app_nil_r in Hres. unfold Chat.trimMessages.
    destruct (msgs ++ [m]) as [|first rest] eqn:Hall; [by destruct msgs|].
    change (Chat.total_tokens ceil_quarter_of_string []) with (Num 0) in Hres.
    rewrite Hres.
    destruct suf as [|s suf]; [right|left; by split].
    split; [done|]. destruct (find _ _); [done|].
    by rewrite <- Hall, last_last.
Qed.

Lemma total_tokens_one (m : message) :
  total_tokens [m] = estimateMessageTokens m.
Proof. rewrite total_tokens_cons. apply num_add_0_l. Qed.

(** When the most recent message fits, the loop keeps a non-empty suffix. *)
Lemma trimMessages_loop (msgs : list message) (m : message) (maxTokens : Z) :
  num_le (estimateMessageTokens m) maxTokens = true ->
  exists pre,
    msgs ++ [m] = pre ++ trimMessages (msgs ++ [m]) maxTokens /\
    trimMessages (msgs ++ [m]) maxTokens <> [] /\
    (forall s1 x s2, trimMessages (msgs ++ [m]) maxTokens = s1 ++ x :: s2 ->
       num_gt (total_tokens (x :: s2)) maxTokens = false) /\
    (forall pre' y, pre = pre' ++ [y] ->
       num_gt (total_tokens (y :: trimMessages (msgs ++ [m]) maxTokens))
         maxTokens = true).
Proof.
  intros Hfit.
  destruct (trimMessages_cases msgs m maxTokens)
    as (pre & suf & Hsplit & Hpass & Hstop & [[Hne ->]|[-> _]]).
  - by exists pre.
  - exfalso. rewrite app_nil_r in Hsplit. subst pre.
    specialize (Hstop msgs m eq_refl). rewrite total_tokens_one in Hstop.
    by rewrite (num_le_not_gt _ _ Hfit) in Hstop.
Qed.

(** When the most recent message is over budget, the loop keeps nothing
    and the emergency fallback answers. *)
Lemma trimMessages_fallback (msgs : list message) (m : message) (maxTokens : Z) :
  num_gt (estimateMessageTokens m) maxTokens = true ->
  trimMessages (msgs ++ [m]) maxTokens =
    match find is_user (rev (msgs ++ [m])) with
    | Some lastUser => [lastUser]
    | None => [m]
    end.
Proof.
  intros Hover.
  destruct (trimMessages_cases msgs m maxTokens)
    as (pre & suf & Hsplit & Hpass & _ & [[Hne _]|[_ ->]]); [|done].
  exfalso. destruct suf as [|s suf _] using rev_ind; [done|].
  rewrite app_assoc in Hsplit. apply app_inj_tail in Hsplit as [_ <-].
  specialize (Hpass suf m [] eq_refl). rewrite total_tokens_one in Hpass.
  by rewrite Hover in Hpass.
Qed.

Lemma find_rev_last (P : message -> bool) (messages : list message) :
  match find P (rev messages) with
  | Some u =>
      exists pre post, messages = pre ++ u :: post /\ P u = true /\
                       forallb (fun x => negb (P x)) post = true
  | None => forallb (fun x => negb (P x)) messages = true
  end.
Proof.
  induction messages as [|x messages IH] using rev_ind; [done|].
  rewrite rev_app_distr. simpl. destruct (P x) eqn:HP.
  - exists messages, []. by rewrite HP.
  - destruct (find P (rev messages)) as [u|].
    + destruct IH as (pre & post & -> & Hu & Hpost).
      exists pre, (post ++ [x]). rewrite <- app_assoc. simpl.
      repeat split; [done|]. rewrite forallb_app, Hpost. simpl. by rewrite HP.
    + rewrite forallb_app, IH. simpl. by rewrite HP.
Qed.

(** The emergency fallback in words: the last user message alone, or the
    last message alone when no message is a user message. *)
Lemma trimMessages_fallback_message (msgs : list message) (m : message)
    (maxTokens : Z) :
  num_gt (estimateMessageTokens m) maxTokens = true ->
  (exists pre u post,
     msgs ++ [m] = pre ++ u :: post /\ is_user u = true /\
     forallb (fun x => negb (is_user x)) post = true /\
     trimMessages (msgs ++ [m]) maxTokens = [u]) \/
  (forallb (fun x => negb (is_user x)) (msgs ++ [m]) = true /\
   trimMessages (msgs ++ [m]) maxTokens = [m]).
Proof.
  intros Hover. rewrite trimMessages_fallback by done.
  pose proof (find_rev_last is_user (msgs ++ [m])) as Hfind.
  destruct (find is_user (rev (msgs ++ [m]))) as [u|].
  - left. destruct Hfind as (pre & post & ? & ? & ?). by exists pre, u, post.
  - by right.
Qed.

(** Without a NaN estimate, what the loop kept is within the budget. *)
Lemma trimMessages_loop_budget (msgs : list message) (m : message)
    (maxTokens : Z) :
  Forall (fun x => estimateMessageTokens x <> NaN) (msgs ++ [m]) ->
  num_le (estimateMessageTokens m) maxTokens = true ->
  num_le (total_tokens (trimMessages (msgs ++ [m]) maxTokens)) maxTokens = true.
Proof.
  intros Hnum Hfit.
  destruct (trimMessages_loop msgs m maxTokens Hfit)
    as (pre & Hsplit & Hne & Hpass & _).
  set (kept := trimMessages (msgs ++ [m]) maxTokens) in *.
  assert (Hkept : Forall (fun x => estimateMessageTokens x <> NaN) kept).
  { rewrite Hsplit in Hnum. by apply Forall_app in Hnum as [_ ?]. }
  destruct kept as [|x kept']; [done|].
  specialize (Hpass [] x kept' eq_refl).
  destruct (total_tokens_range (x :: kept') Hkept) as [Hinf|(z & Hz & _)].
  - by rewrite Hinf in Hpass.
  - rewrite Hz in *. simpl in *. destruct (Z.gtb_spec z maxTokens); [done|].
    by apply Z.leb_le.
Qed.


(** C1 (as amended): the empty history is returned as it is; when no
    estimate is NaN and the most recent message alone fits, the returned
    history is within the budget; when the most recent message alone is
    over budget, the emergency fallback returns exactly one message, the
    last user message or, without a user message, the last message,
    whatever its estimate; and the estimate of a message whose text parts
    hold strings is an integer, not NaN. *)
Theorem trimMessages_budget (msgs : list message) (m : message) (maxTokens : Z) :
  trimMessages [] maxTokens = [] /\
  (Forall (fun x => estimateMessageTokens x <> NaN) (msgs ++ [m]) ->
   num_le (estimateMessageTokens m) maxTokens = true ->
   num_le (total_tokens (trimMessages (msgs ++ [m]) maxTokens)) maxTokens
     = true) /\
  (num_gt (estimateMessageTokens m) maxTokens = true ->
   (exists pre u post,
      msgs ++ [m] = pre ++ u :: post /\ is_user u = true /\
      forallb (fun x => negb (is_user x)) post = true /\
      trimMessages (msgs ++ [m]) maxTokens = [u]) \/
   (forallb (fun x => negb (is_user x)) (msgs ++ [m]) = true /\
    trimMessages (msgs ++ [m]) maxTokens = [m])) /\
  (forall message : message,
     string_texts message = true ->
     exists z, estimateMessageTokens message = Num z /\ (1 <= z)%Z).
Proof.
  split; [done|]. split; [|split].
  - apply trimMessages_loop_budget.
  - apply trimMessages_fallback_message.
  - apply estimateMessageTokens_string.
Qed.

Lemma passes_suffix_of_fit (suf : list message) (maxTokens : Z) :
  num_le (total_tokens suf) maxTokens = true ->
  forall s1 x s2, suf = s1 ++ x :: s2 ->
    num_gt (total_tokens (x :: s2)) maxTokens = false.
Proof.
  intros Hfit s1 x s2 ->.
  destruct (num_le_Num _ _ Hfit (total_tokens_not_NegInf _)) as (z & Hz & Hle).
  destruct (total_tokens_suffix s1 (x :: s2) z Hz) as (b & -> & Hb).
  simpl. destruct (Z.gtb_spec b maxTokens); [lia|done].
Qed.



End TrimMessages.

Lemma trimMessages_budget_witness :
  num_le (total_tokens no_conversion
            (trimMessages no_conversion ([msg_long] ++ [msg_short]) 20)) 20
    = true /\
  trimMessages no_conversion ([msg_short] ++ [msg_long]) 10 = [msg_long] /\
  estimateMessageTokens no_conversion msg_long = Num 16.
Proof.
  pose proof (trimMessages_budget no_conversion [msg_long] msg_short 20)
    as (_ & Hfit & _ & _).
  pose proof (trimMessages_budget no_conversion [msg_short] msg_long 10)
    as (_ & _ & Hover & Hstring).
  split; [|split].
  - apply Hfit; [|reflexivity].
    repeat constructor; vm_compute; discriminate.
  - destruct Hover as [(pre & u & post & _ & _ & _ & Hres)|[Hnone _]].
    + reflexivity.
    + reflexivity.
    + vm_compute in Hnone. discriminate.
  - destruct (Hstring msg_long eq_refl) as (z & Hz & _).
    rewrite Hz. vm_compute in Hz. injection Hz as <-. reflexivity.
Defined.

(** C1 as stated fails: a single message estimated at 16 tokens is returned
    for a budget of 10. *)
Lemma trimMessages_over_budget :
  trimMessages no_conversion [msg_long] 10 = [msg_long] /\
  total_tokens no_conversion (trimMessages no_conversion [msg_long] 10)
    = Num 16 /\
  num_le (Num 16) 10 = false.
Proof. repeat split; reflexivity. Qed.



(** ** stripResponseMetadata *)

Section StripResponseMetadata.

(** Induction over values that reaches inside arrays and objects. *)
Lemma value_nested_ind (P : value -> Prop) :
  P VUndefined -> P VNull -> (forall b, P (VBool b)) -> (forall n, P (VNum n)) ->
  (forall s, P (VStr s)) ->
  (forall xs, Forall P xs -> P (VArr xs)) ->
  (forall fs, Forall (fun kx => P (snd kx)) fs -> P (VObj fs)) ->
  forall v, P v.
Proof.
  intros Hu Hn Hb Hz Hs Ha Ho.
  fix IH 1.
  intros [| |b|n|s|xs|fs]; [apply Hu|apply Hn|apply Hb|apply Hz|apply Hs| |].
  - apply Ha. induction xs as [|x xs IHxs]; constructor; [apply IH|exact IHxs].
  - apply Ho. induction fs as [|[k x] fs IHfs]; constructor; [apply IH|exact IHfs].
Qed.

Lemma index_key_not_metadata (i : nat) : index_key i ∉ metadata_keys.
Proof.
  unfold index_key, show_Z, metadata_keys.
  destruct (Z.of_nat i) as [|p|p] eqn:Hi; [| |lia].
  - vm_compute. intros H. repeat (apply elem_of_cons in H as [H|H]; [discriminate|]).
    by apply elem_of_nil in H.
  - simpl. unfold NilZero.string_of_uint.
    intros H. destruct (Pos.to_uint p); cbn in H;
      repeat (apply elem_of_cons in H as [H|H]; [discriminate|]);
      by apply elem_of_nil in H.
Qed.

Lemma replacer_drops_index (i : nat) (x : value) :
  replacer_drops (index_key i) x = str_startsWith x (js "rs_").
Proof.
  unfold replacer_drops. rewrite bool_decide_eq_false_2; [done|].
  apply index_key_not_metadata.
Qed.

(** The replacer would also let the cleaned value through. *)
Lemma clean_property_kept (key : jsstring) (v v' : value) :
  clean_property key v = Some v' -> replacer_drops key v' = false.
Proof.
  destruct v; simpl; destruct (replacer_drops key _) eqn:Hd; try discriminate;
    intros [= <-]; try exact Hd.
  all: unfold replacer_drops in *; simpl in *; exact Hd.
Qed.

(** Whatever the replacer lets through has no dropped property left. *)
Lemma clean_property_no_metadata (v : value) :
  forall key v', clean_property key v = Some v' -> no_metadata v' = true.
Proof.
  induction v as [| |b|n|s|xs IH|fs IH] using value_nested_ind; intros key v';
    simpl; destruct (replacer_drops key _); try discriminate;
    try (intros [= <-]; reflexivity).
  - intros [= <-]. simpl. generalize 0.
    induction IH as [|x xs Hx _ IHxs]; intros i; simpl; [done|].
    rewrite IHxs, andb_true_r.
    destruct (clean_property (index_key i) x) as [x'|] eqn:Hc; simpl; eauto.
  - intros [= <-]. simpl.
    induction IH as [|[k x] fs Hx _ IHfs]; simpl; [done|].
    simpl in Hx. destruct (clean_property k x) as [x'|] eqn:Hc; [|done].
    simpl. by rewrite IHfs, (Hx _ _ Hc), (clean_property_kept _ _ _ Hc).
Qed.

(** On JSON data the cleaning is the one described in words. *)
Lemma clean_property_json (v : value) :
  is_json v = true ->
  forall key,
    clean_property key v =
      if replacer_drops key v then None else Some (strip_spec v).
Proof.
  induction v as [| |b|n|s|xs IH|fs IH] using value_nested_ind; intros Hjson key;
    simpl; destruct (replacer_drops key _); try done.
  - do 2 f_equal. simpl in Hjson. generalize 0.
    induction IH as [|x xs Hx _ IHxs]; intros i; simpl; [done|].
    simpl in Hjson. apply andb_prop in Hjson as [Hjx Hjxs].
    rewrite (IHxs Hjxs), (Hx Hjx), replacer_drops_index.
    by destruct (str_startsWith x (js "rs_")).
  - do 2 f_equal. simpl in Hjson.
    induction IH as [|[k x] fs Hx _ IHfs]; simpl; [done|].
    simpl in Hjson, Hx. apply andb_prop in Hjson as [Hjx Hjfs].
    rewrite (IHfs Hjfs), (Hx Hjx). unfold replacer_drops.
    by destruct (_ || _).
Qed.

Lemma strip_part_no_metadata (part : value) :
  is_object part = true -> no_metadata (strip_part part) = true.
Proof.
  intros Hobj. unfold strip_part. rewrite Hobj.
  destruct (clean_property [] part) as [part'|] eqn:Hc; simpl.
  - by eapply clean_property_no_metadata.
  - destruct part; try discriminate; simpl in Hc;
      destruct (replacer_drops [] _) eqn:Hd; try discriminate;
      by vm_compute in Hd.
Qed.

Lemma strip_part_json (part : value) :
  is_json part = true ->
  strip_part part = if is_object part then strip_spec part else part.
Proof.
  intros Hjson. unfold strip_part. destruct (is_object part) eqn:Hobj; [|done].
  rewrite clean_property_json by done.
  by destruct part.
Qed.

(** C8 (as amended): in the parts returned for an array of parts, no
    object at any depth keeps a property named [response], [responseId],
    [rs_id], [response_id], [requestId] or [request_id], nor a property
    whose value is a string starting with [rs_]; for JSON parts, every
    other property is kept in place with its value cleaned in the same way,
    and inside arrays a string element starting with [rs_] is replaced by
    [null]; parts that are not objects are returned as they are. *)
Theorem stripResponseMetadata_cleans (parts : list value) :
  exists parts',
    stripResponseMetadata (VArr parts) = VArr parts' /\
    Forall (fun part' => no_metadata part' = true) parts' /\
    (forallb is_json parts = true ->
     parts' = map (fun part => if is_object part then strip_spec part else part)
                  parts).
Proof.
  exists (map strip_part parts). split; [done|]. split.
  - apply Forall_forall. intros part' Hin.
    apply list_elem_of_fmap in Hin as (part & -> & _).
    destruct (is_object part) eqn:Hp.
    + by apply strip_part_no_metadata.
    + unfold strip_part. rewrite Hp. by destruct part.
  - intros Hjson. apply map_ext_in. intros part Hin.
    apply strip_part_json. rewrite forallb_forall in Hjson. by apply Hjson.
Qed.

Lemma stripResponseMetadata_cleans_witness :
  exists parts',
    stripResponseMetadata (VArr [part_with_ids; VStr (js "rs_top")])
      = VArr parts' /\
    parts' =
      [VObj [(js "type", VStr (js "text")); (js "text", VStr (js "hi"));
             (js "ids", VArr [VNull; VStr (js "x")])];
       VStr (js "rs_top")].
Proof.
  destruct (stripResponseMetadata_cleans [part_with_ids; VStr (js "rs_top")])
    as (parts' & Hstrip & _ & Hspec).
  exists parts'. split; [exact Hstrip|].
  rewrite Hspec by reflexivity. reflexivity.
Defined.

(** C8 as stated fails: a property that is neither named like an
    identifier nor holds a string starting with [rs_] is not preserved
    unchanged when it holds an array with such a string, which becomes
    [null]. *)
Lemma stripResponseMetadata_changes_array :
  stripResponseMetadata (VArr [part_with_ids])
    = VArr [VObj [(js "type", VStr (js "text")); (js "text", VStr (js "hi"));
                  (js "ids", VArr [VNull; VStr (js "x")])]] /\
  strip_fields_only part_with_ids
    = VObj [(js "type", VStr (js "text")); (js "text", VStr (js "hi"));
            (js "ids", VArr [VStr (js "rs_1"); VStr (js "x")])] /\
  stripResponseMetadata (VArr [part_with_ids])
    <> VArr (map strip_fields_only [part_with_ids]).
Proof. repeat split; try reflexivity. vm_compute. discriminate. Qed.

End StripResponseMetadata.

(** ** Objects *)

Section Objects.

Lemma assoc_set_field_eq (k : jsstring) (v : value) (fs : obj) :
  assoc k (set_field k v fs) = Some v.
Proof.
  induction fs as [|[k' v'] fs IH]; simpl.
  - by rewrite decide_True.
  - destruct (decide (k' = k)) as [->|Hne]; simpl.
    + by rewrite decide_True.
    + by rewrite decide_False.
Qed.

Lemma assoc_set_field_ne (k k' : jsstring) (v : value) (fs : obj) :
  k' <> k -> assoc k' (set_field k v fs) = assoc k' fs.
Proof.
  intros Hne. induction fs as [|[k0 v0] fs IH]; simpl.
  - by rewrite decide_False.
  - destruct (decide (k0 = k)) as [->|Hne0]; simpl.
    + by rewrite !decide_False.
    + by rewrite IH.
Qed.

Lemma field_set_field_eq (k : jsstring) (v : value) (fs : obj) :
  field k (set_field k v fs) = v.
Proof. unfold field. by rewrite assoc_set_field_eq. Qed.

Lemma field_set_field_ne (k k' : jsstring) (v : value) (fs : obj) :
  k' <> k -> field k' (set_field k v fs) = field k' fs.
Proof. intros Hne. unfold field. by rewrite assoc_set_field_ne. Qed.

End Objects.

(** ** Persistence filters *)

Section Persistence.

Lemma startsWith_text_tool : startsWith (js "text") (js "tool-") = false.
Proof. reflexivity. Qed.


(** Apart from that case an object is returned as it is. *)
Lemma strip_image_data_object (note : jsstring -> jsstring) (pfs : obj) :
  exists pfs',
    strip_image_data note (VObj pfs) = Some (VObj pfs') /\
    field (js "type") pfs' = field (js "type") pfs /\
    field (js "output") pfs' = field (js "output") pfs /\
    (present (field (js "result") pfs) = true ->
     present (field (js "result") pfs') = true).
Proof.
  simpl. destruct (str_eq _ _); [|by exists pfs].
  destruct (field (js "result") pfs) as [| | | | | |rfs] eqn:Hres;
    try (exists pfs; by rewrite ?Hres).
  destruct (truthy _); [|exists pfs; by rewrite ?Hres].
  eexists. split; [done|].
  rewrite field_set_field_eq, !field_set_field_ne by done. done.
Qed.




Lemma strip_image_data_defined (note : jsstring -> jsstring) (part : value) :
  present part = true -> is_Some (strip_image_data note part).
Proof.
  destruct part as [| | | | | |pfs]; simpl; try done.
  intros _. destruct (str_eq _ _); [|done].
  destruct (field (js "result") pfs); try done.
  by destruct (truthy _).
Qed.



















End Persistence.

(** ** summarizeOlderMessages *)

Section SummarizeProps.

Variable JSON_parse : jsstring -> option value.



End SummarizeProps.



(** ** The /api/eco-rag route handler *)

Section EcoRagProps.

Context {number : Type}.
Variable toFixed4 : number -> jsstring.
Variable one_minus : number -> number.

#[local] Abbreviation POST := (POST toFixed4 one_minus).
#[local] Abbreviation POST_v1 := (POST_v1 toFixed4).

Lemma trim_start_whitespace (q : jsstring) :
  forallb is_whitespace q = true -> trim_start q = [].
Proof.
  induction q as [|c q IH]; simpl; [done|].
  intros H. apply andb_prop in H as [-> Hq]. by apply IH.
Qed.

Lemma trim_whitespace (q : jsstring) :
  forallb is_whitespace q = true -> trim q = [].
Proof. intros H. unfold trim. by rewrite (trim_start_whitespace q H). Qed.

Lemma validated_query_rejects (w : @world number) (b : value) :
  present b = true ->
  (truthy (get (js "query") b) = false \/
   exists q, get (js "query") b = VStr q /\ forallb is_whitespace q = true) ->
  validated_query w (Returns b) =
    inl {| status := 400;
           json := ErrorBody (js "Query parameter is required") None None |}.
Proof.
  intros Hb Hq. unfold validated_query.
  assert (Hgoal :
    (if negb (truthy (get (js "query") b))
     then inl {| status := 400;
                 json := ErrorBody (js "Query parameter is required") None None |}
     else match get (js "query") b with
          | VStr q =>
              if bool_decide (trim q = [])
              then inl {| status := 400;
                          json := ErrorBody (js "Query parameter is required")
                                    None None |}
              else inr (q, b)
          | _ => inl (failed w 1 (js "query.trim is not a function"))
          end) =
    (inl {| status := 400;
            json := ErrorBody (js "Query parameter is required") None None |}
       : @response number + (jsstring * value))).
  { destruct Hq as [->|(q & -> & Hws)]; simpl; [done|].
    destruct (bool_decide (q = [])); simpl; [done|].
    by rewrite (trim_whitespace q Hws). }
  by destruct b.
Qed.

Lemma validated_query_null (w : @world number) (b : value) :
  present b = false ->
  validated_query w (Returns b) =
    inl (failed w 1
           (js "Cannot destructure property 'query' of 'body' as it is "
            ++ to_text b ++ js ".")).
Proof. by destruct b. Qed.

(** C10 (as amended): a body that is not [null], without a query or with
    an empty or whitespace-only query, is answered with status 400 and a
    JSON error; the body [null] is answered with status 500, the
    destructuring of it raising TypeError; in both cases the handler (in
    both of its versions) leaves the state as it was: no embedding call,
    no vector query, no compression call, no context stored. *)
Theorem empty_query_rejected (w : @world number) (b : value)
    (st : @state number) :
  (present b = true ->
   (truthy (get (js "query") b) = false \/
    exists q, get (js "query") b = VStr q /\ forallb is_whitespace q = true) ->
   POST w (Returns b) st =
     ({| status := 400;
         json := ErrorBody (js "Query parameter is required") None None |}, st) /\
   POST_v1 w (Returns b) st =
     ({| status := 400;
         json := ErrorBody (js "Query parameter is required") None None |}, st)) /\
  (present b = false ->
   exists message,
     POST w (Returns b) st =
       ({| status := 500;
           json := ErrorBody (js "RAG query failed") (Some message)
                     (Some (now w 1 - now w 0)%Z) |}, st) /\
     POST_v1 w (Returns b) st =
       ({| status := 500;
           json := ErrorBody (js "RAG query failed") (Some message)
                     (Some (now w 1 - now w 0)%Z) |}, st)).
Proof.
  split.
  - intros Hb Hq. unfold EcoRag.POST, EcoRag.POST_v1.
    by rewrite (validated_query_rejects w b Hb Hq).
  - intros Hb. eexists. unfold EcoRag.POST, EcoRag.POST_v1.
    rewrite (validated_query_null w b Hb). done.
Qed.

(** The events of a run, from the trace after it. *)
Ltac new_events H :=
  simpl in H; rewrite <- ?app_assoc in H; apply app_inv_head in H; subst.

Ltac no_insert H :=
  repeat (apply elem_of_cons in H as [H|H]; [discriminate H|]);
  by apply elem_of_nil in H.

Ltac nothing_stored :=
  split; [done|split; [done|]];
  let evs := fresh "evs" in let row := fresh "row" in
  let H := fresh "H" in let Hin := fresh "Hin" in
  intros evs row H Hin;
  first [ new_events H
        | rewrite <- (app_nil_r (trace _)) in H at 1; new_events H ];
  no_insert Hin.

(** C7: when the insert of the retrieval context raises, the response is
    the one given when the insert succeeds, and the table is left as it
    was; whenever an insert was attempted, that response is the successful
    one (status 200) carrying the fields of the context that would have
    been stored. *)
Theorem storage_failure_is_swallowed (w : @world number) (message : jsstring)
    (request : outcome value) (st : @state number) :
  fst (POST (with_insert (Some message) w) request st) =
    fst (POST (with_insert None w) request st) /\
  table (snd (POST (with_insert (Some message) w) request st)) = table st /\
  (forall evs row,
     trace (snd (POST (with_insert (Some message) w) request st))
       = trace st ++ evs ->
     ContextInsert row ∈ evs ->
     fst (POST (with_insert (Some message) w) request st) =
       {| status := 200;
          json := RagBody (ctx_id row) (ctx_compressedSummary row)
                    (ctx_sources row) (ctx_query row) (now w 1 - now w 0)%Z
                    (ctx_tokenCount row) |} /\
     truthy (ctx_sessionId row) = true /\
     table (snd (POST (with_insert None w) request st)) = table st ++ [row]).
Proof.
  unfold EcoRag.POST.
  assert (Hv : forall fate,
            validated_query (with_insert fate w) request =
            validated_query w request) by (intros; by destruct request).
  rewrite !Hv.
  destruct (validated_query w request) as [early|[query b]]; simpl;
    [nothing_stored|].
  destruct (has_api_key w); simpl; [|nothing_stored].
  destruct (embeddings_create w query) as [queryEmbedding|m1]; simpl;
    [|nothing_stored].
  destruct (vectors_query w queryEmbedding _) as [[|r results]|m2]; simpl;
    [nothing_stored| |nothing_stored].
  destruct (chat_completion w _) as [c|m3]; simpl; [|nothing_stored].
  destruct (truthy (get (js "sessionId") b)) eqn:Hsid; simpl;
    [|nothing_stored].
  split; [done|split; [done|]].
  intros evs row H Hin. new_events H.
  repeat (apply elem_of_cons in Hin as [Hin|Hin]; [try discriminate Hin|]);
    [|by apply elem_of_nil in Hin].
  by injection Hin as ->.
Qed.

End EcoRagProps.

Lemma empty_query_rejected_witness :
  POST show_Z (fun d => (1 - d)%Z) sample_world (Returns (VObj blank_request))
    empty_state =
    ({| status := 400;
        json := ErrorBody (js "Query parameter is required") None None |},
     empty_state) /\
  POST show_Z (fun d => (1 - d)%Z) sample_world (Returns (VObj []))
    empty_state =
    ({| status := 400;
        json := ErrorBody (js "Query parameter is required") None None |},
     empty_state) /\
  POST_v1 show_Z sample_world (Returns (VObj [])) empty_state =
    ({| status := 400;
        json := ErrorBody (js "Query parameter is required") None None |},
     empty_state) /\
  snd (POST show_Z (fun d => (1 - d)%Z) sample_world (Returns VNull)
         empty_state) = empty_state.
Proof.
  pose proof (empty_query_rejected show_Z (fun d => (1 - d)%Z) sample_world
                (VObj blank_request) empty_state) as [Hblank _].
  pose proof (empty_query_rejected show_Z (fun d => (1 - d)%Z) sample_world
                (VObj []) empty_state) as [Hnone _].
  pose proof (empty_query_rejected show_Z (fun d => (1 - d)%Z) sample_world
                VNull empty_state) as [_ Hnull].
  split; [|split; [|split]].
  - apply Hblank; [reflexivity|]. right. exists (js "   "). split; reflexivity.
  - apply Hnone; [reflexivity|]. left. reflexivity.
  - apply Hnone; [reflexivity|]. left. reflexivity.
  - destruct (Hnull eq_refl) as (message & -> & _). reflexivity.
Defined.

(** C10 as stated fails: the body [null] has no query field, and it is
    answered with status 500, by both versions of the handler. *)
Lemma null_body_answered_500 :
  status (fst (POST show_Z (fun d => (1 - d)%Z) sample_world (Returns VNull)
                 empty_state)) = 500%Z /\
  status (fst (POST_v1 show_Z sample_world (Returns VNull) empty_state))
    = 500%Z /\
  get (js "query") VNull = VUndefined.
Proof. repeat split; reflexivity. Qed.

Lemma storage_failure_is_swallowed_witness :
  exists row,
    fst (POST show_Z (fun d => (1 - d)%Z)
           (with_insert (Some (js "disk full")) sample_world)
           sample_request empty_state) =
      {| status := 200;
         json := RagBody (js "ctx_1020_k3x9q0abc") (js "Sea level rises.")
                   (ctx_sources row) (js "sea level") 10 5 |} /\
    table (snd (POST show_Z (fun d => (1 - d)%Z)
                  (with_insert (Some (js "disk full")) sample_world)
                  sample_request empty_state)) = [] /\
    table (snd (POST show_Z (fun d => (1 - d)%Z)
                  (with_insert None sample_world)
                  sample_request empty_state)) = [row].
Proof.
  pose proof (storage_failure_is_swallowed show_Z (fun d => (1 - d)%Z)
                sample_world (js "disk full") sample_request empty_state)
    as (_ & Htable & Hrow).
  eexists. edestruct Hrow as (Hresp & _ & Hstored).
  - vm_compute. reflexivity.
  - do 3 (apply elem_of_cons; right). apply elem_of_cons. left. reflexivity.
  - split; [exact Hresp|]. split; [exact Htable|exact Hstored].
Defined.

(** ** The limit on RAG searches *)

Section RAGSearchProps.

Context {number : Type}.
Variable toFixed4 : number -> jsstring.
Variable one_minus : number -> number.

#[local] Abbreviation search := (olympiaRAGSearch toFixed4 one_minus).
#[local] Abbreviation run := (run_calls toFixed4 one_minus).

Lemma includes_here (x : jsstring) : includes x x.
Proof. exists [], []. by rewrite app_nil_r. Qed.

Lemma includes_app_l (a b x : jsstring) : includes a x -> includes (a ++ b) x.
Proof.
  intros (pre & post & ->). exists pre, (post ++ b). by rewrite <- !app_assoc.
Qed.

Lemma includes_app_r (a b x : jsstring) : includes b x -> includes (a ++ b) x.
Proof.
  intros (pre & post & ->). exists (a ++ pre), post. by rewrite <- !app_assoc.
Qed.

Lemma includes_join (sep : jsstring) (xs : list jsstring) (entry x : jsstring) :
  entry ∈ xs -> includes entry x -> includes (join sep xs) x.
Proof.
  intros Hin Hx. induction xs as [|y xs IH]; [by apply elem_of_nil in Hin|].
  apply elem_of_cons in Hin as [<-|Hin].
  - destruct xs; simpl; [done|]. by apply includes_app_l.
  - destruct xs as [|z xs]; [by apply elem_of_nil in Hin|].
    change (join sep (y :: z :: xs)) with (y ++ sep ++ join sep (z :: xs)).
    do 2 apply includes_app_r. by apply IH.
Qed.

(** The limit message names every context that it is given. *)
Lemma limit_message_lists (rows : list (@rag_context number))
    (row : @rag_context number) :
  row ∈ rows ->
  includes (limit_message rows) (js "Context ID: " ++ ctx_id row).
Proof.
  intros Hin. apply list_elem_of_lookup_1 in Hin as [i Hi].
  assert (Hentry : includes (readableList rows) (js "Context ID: " ++ ctx_id row)).
  { unfold readableList. eapply includes_join.
    - eapply list_elem_of_lookup_2. rewrite list_lookup_imap, Hi. done.
    - unfold readable_entry.
      do 6 apply includes_app_r.
      exists (js "   "), (newline ++ js "   Preview: "
                  ++ substring0 200 (preview (ctx_compressedSummary row))
                  ++ js "...").
      reflexivity. }
  unfold limit_message.
  repeat match goal with
         | |- includes (readableList rows ++ _) _ => apply includes_app_l; exact Hentry
         | |- includes (_ ++ _) _ => apply includes_app_r
         end.
Qed.

(** [value_eqb] decides equality. *)
Lemma value_eqb_eq (a b : value) : value_eqb a b = true <-> a = b.
Proof.
  revert b. induction a as [| |x|x|x|xs IH|fs IH] using value_nested_ind;
    intros [| |y|y|y|ys|gs]; simpl; try (split; [done|discriminate]); try done.
  - destruct x, y; simpl; split; try done; discriminate.
  - rewrite Z.eqb_eq. split; [by intros ->|by intros [= ->]].
  - rewrite bool_decide_eq_true. split; [by intros ->|by intros [= ->]].
  - revert ys. induction IH as [|x xs Hx _ IHxs]; intros [|y ys];
      try (split; [done|discriminate]); try done.
    rewrite andb_true_iff, Hx. split.
    + intros [-> Hrest]. apply IHxs in Hrest. by injection Hrest as ->.
    + intros [= -> ->]. split; [done|]. by apply IHxs.
  - revert gs. induction IH as [|[k x] fs Hx _ IHfs]; intros [|[l y] gs];
      try (split; [done|discriminate]); try done.
    simpl in Hx. rewrite !andb_true_iff, bool_decide_eq_true, Hx. split.
    + intros [[-> ->] Hrest]. apply IHfs in Hrest. by injection Hrest as ->.
    + intros [= -> -> ->]. repeat split; try done. by apply IHfs.
Qed.

Lemma value_eqb_refl (a : value) : value_eqb a a = true.
Proof. by apply value_eqb_eq. Qed.

Lemma count_app (sessionId : value) (t : list (@rag_context number))
    (row : @rag_context number) :
  countRagContextsForSession sessionId (t ++ [row]) =
    countRagContextsForSession sessionId t
    + (if value_eqb (ctx_sessionId row) sessionId then 1 else 0).
Proof.
  unfold countRagContextsForSession, listRagContextsForSession.
  rewrite filter_app, length_app, filter_cons, filter_nil.
  destruct (decide _) as [->|Hne]; simpl; [done|].
  by destruct (value_eqb _ _).
Qed.

(** The endpoint stores at most one row, for the session id of the body. *)
Lemma POST_table (w : @world number) (b : value) (st : @state number) :
  table (snd (POST toFixed4 one_minus w (Returns b) st)) = table st \/
  exists row,
    table (snd (POST toFixed4 one_minus w (Returns b) st)) = table st ++ [row] /\
    ctx_sessionId row = get (js "sessionId") b /\
    truthy (get (js "sessionId") b) = true.
Proof.
  unfold POST. destruct (validated_query w (Returns b)) as [early|[query b']] eqn:Hv;
    simpl; [by left|].
  assert (b' = b) as ->.
  { unfold validated_query in Hv. destruct b; try discriminate Hv.
    all: simpl in Hv; try discriminate Hv.
    destruct (negb _); [discriminate Hv|].
    destruct (field (js "query") fields); try discriminate Hv.
    destruct (bool_decide _); [discriminate Hv|]. by injection Hv as _ <-. }
  destruct (has_api_key w); simpl; [|by left].
  destruct (embeddings_create w query) as [queryEmbedding|m1]; simpl; [|by left].
  destruct (vectors_query w queryEmbedding _) as [[|r results]|m2]; simpl;
    try by left.
  destruct (chat_completion w _) as [c|m3]; simpl; [|by left].
  destruct (truthy (get (js "sessionId") b)) eqn:Hsid; simpl; [|by left].
  unfold createRagContext. destruct (insert_raises w); simpl; [by left|].
  right. eexists. by repeat split.
Qed.

(** The endpoint answers within 200..299 exactly when the body is the
    retrieval result, which is how the tool tells [response.ok]. *)
Lemma POST_ok (w : @world number) (request : outcome value)
    (st : @state number) :
  match json (fst (POST toFixed4 one_minus w request st)) with
  | RagBody _ _ _ _ _ _ =>
      status (fst (POST toFixed4 one_minus w request st)) = 200%Z
  | ErrorBody _ _ _ =>
      status (fst (POST toFixed4 one_minus w request st)) = 400%Z \/
      status (fst (POST toFixed4 one_minus w request st)) = 500%Z
  | AnswerBody _ _ _ _ => False
  end.
Proof.
  unfold POST.
  destruct (validated_query w request) as [early|[query b]] eqn:Hv; simpl.
  { unfold validated_query in Hv.
    destruct request as [b|m]; [|injection Hv as <-; by right].
    destruct b; try (injection Hv as <-; by right).
    all: destruct (negb _); [injection Hv as <-; by left|].
    all: try (injection Hv as <-; by right).
    all: destruct (get _ _); try (injection Hv as <-; by right).
    all: destruct (bool_decide _); [injection Hv as <-; by left|done]. }
  destruct (has_api_key w); simpl; [|by right].
  destruct (embeddings_create w query) as [queryEmbedding|m1]; simpl; [|by right].
  destruct (vectors_query w queryEmbedding _) as [[|r results]|m2]; simpl;
    [done| |by right].
  by destruct (chat_completion w _) as [c|m3]; simpl; [|right].
Qed.

Lemma request_body_sessionId (query : jsstring) (topK sessionId : value) :
  get (js "sessionId") (request_body query topK sessionId) = sessionId.
Proof. by destruct sessionId. Qed.

(** One call keeps the number of contexts of every session within the cap. *)
Lemma search_keeps_cap (w : @tool_world number) (query : jsstring)
    (topK sessionId : value) (st : @state number) (sid : value) :
  countRagContextsForSession sid (table st) <= MAX_RAG_CALLS_PER_SESSION ->
  countRagContextsForSession sid
    (table (snd (search w query topK sessionId st)))
    <= MAX_RAG_CALLS_PER_SESSION.
Proof.
  intros Hcap. unfold olympiaRAGSearch.
  assert (Hroom : truthy sessionId = true -> sessionId = sid ->
            (if truthy sessionId
             then if MAX_RAG_CALLS_PER_SESSION
                     <=? countRagContextsForSession sessionId (table st)
                  then Some (limit_message
                               (listRagContextsForSession sessionId (table st)))
                  else None
             else None) = None ->
            countRagContextsForSession sid (table st)
            < MAX_RAG_CALLS_PER_SESSION).
  { intros -> -> Hnone.
    destruct (Nat.leb_spec MAX_RAG_CALLS_PER_SESSION
                (countRagContextsForSession sid (table st))); [done|lia]. }
  destruct (if truthy sessionId then _ else None) eqn:Hblocked; [done|].
  destruct (fetch_raises w); [done|].
  pose proof (POST_table (endpoint w) (request_body query topK sessionId) st)
    as Htable.
  rewrite request_body_sessionId in Htable.
  destruct (POST toFixed4 one_minus (endpoint w) _ st) as [response st'].
  assert (Hst' : countRagContextsForSession sid (table st')
                 <= MAX_RAG_CALLS_PER_SESSION).
  { simpl in Htable. destruct Htable as [->|(row & -> & Hrow & Htruthy)]; [done|].
    rewrite count_app.
    destruct (value_eqb (ctx_sessionId row) sid) eqn:Heq; [|lia].
    rewrite Hrow in Heq. apply value_eqb_eq in Heq.
    specialize (Hroom Htruthy Heq eq_refl). lia. }
  destruct (json response); [done| |done].
  by destruct (track_raises w).
Qed.

(** C2: over any sequence of tool calls run one after the other, from a
    table that holds at most 4 contexts for a session, the table never
    holds more than 4 contexts for that session; and with 4 contexts (or
    more) stored for the session of a call, the call is blocked: the state
    is left as it was (no call leaves the tool, nothing is stored) and the
    text returned is the limit message, which names the id of every
    context stored for the session. *)
Theorem rag_searches_capped (sessionId : value) :
  (forall (calls : list call) (st : @state number),
     countRagContextsForSession sessionId (table st) <= 4 ->
     countRagContextsForSession sessionId (table (run calls st)) <= 4) /\
  (forall (w : @tool_world number) (query : jsstring) (topK : value)
          (st : @state number),
     truthy sessionId = true ->
     4 <= countRagContextsForSession sessionId (table st) ->
     search w query topK sessionId st =
       (Text (limit_message (listRagContextsForSession sessionId (table st))),
        st) /\
     forall row,
       row ∈ table st -> ctx_sessionId row = sessionId ->
       includes (limit_message (listRagContextsForSession sessionId (table st)))
                (js "Context ID: " ++ ctx_id row)).
Proof.
  split.
  - intros calls. induction calls as [|c calls IH]; intros st Hcap; [done|].
    simpl. apply IH. unfold run_call. by apply search_keeps_cap.
  - intros w query topK st Hsid Hfull. split.
    + unfold olympiaRAGSearch. rewrite Hsid.
      destruct (countRagContextsForSession sessionId (table st))
        as [|[|[|[|n]]]]; [lia..|done].
    + intros row Hin Hrow. apply limit_message_lists.
      unfold listRagContextsForSession. apply list_elem_of_filter.
      split; [|done]. rewrite Hrow. apply value_eqb_refl.
Qed.

End RAGSearchProps.

Lemma rag_searches_capped_witness :
  countRagContextsForSession (VStr (js "s1"))
    (table (run_calls show_Z (fun d => (1 - d)%Z)
              (replicate 6 sample_call) empty_state)) <= 4 /\
  exists st message,
    st = run_calls show_Z (fun d => (1 - d)%Z) (replicate 4 sample_call)
           empty_state /\
    olympiaRAGSearch show_Z (fun d => (1 - d)%Z) sample_tool_world
      (js "sea level") (VNum 8) (VStr (js "s1")) st = (Text message, st) /\
    includes message (js "Context ID: ctx_1020_k3x9q0abc").
Proof.
  split.
  - apply (proj1 (rag_searches_capped show_Z (fun d => (1 - d)%Z)
                    (VStr (js "s1")))).
    vm_compute. lia.
  - eexists _, _. split; [reflexivity|].
    destruct (proj2 (rag_searches_capped show_Z (fun d => (1 - d)%Z)
                       (VStr (js "s1")))
                sample_tool_world (js "sea level") (VNum 8)
                (run_calls show_Z (fun d => (1 - d)%Z)
                   (replicate 4 sample_call) empty_state))
      as [Hblocked Hlisted].
    + reflexivity.
    + vm_compute. lia.
    + split; [exact Hblocked|].
      refine (Hlisted
                {| ctx_id := js "ctx_1020_k3x9q0abc";
                   ctx_sessionId := VStr (js "s1");
                   ctx_query := js "sea level";
                   ctx_results := [sample_result];
                   ctx_rawContext :=
                     buildContext show_Z [sample_result];
                   ctx_compressedSummary := js "Sea level rises.";
                   ctx_sources :=
                     imap (format_source (fun d => (1 - d)%Z)) [sample_result];
                   ctx_tokenCount := 5 |} _ eq_refl).
      vm_compute. apply elem_of_cons. by left.
Defined.

(* ===================================================================== *)
(** * Further properties *)

(** ** Token estimates and trimming *)

Section TrimmingMore.

Variable ceil_quarter_of_string : jsstring -> jsnum.

#[local] Abbreviation estimateMessageTokens :=
  (estimateMessageTokens ceil_quarter_of_string).
#[local] Abbreviation total_tokens := (total_tokens ceil_quarter_of_string).
#[local] Abbreviation trimMessages := (trimMessages ceil_quarter_of_string).

(** X1: the estimate of a text is its length divided by four, rounded up:
    four times the estimate covers the text with fewer than four code
    units to spare. *)
Theorem estimateTokens_ceiling (text : jsstring) :
  (len text <= 4 * estimateTokens text < len text + 4)%Z.
Proof.
  unfold estimateTokens.
  pose proof (Z_div_mod_eq_full (len text + 3) 4) as Hdiv.
  pose proof (Z.mod_pos_bound (len text + 3) 4 ltac:(lia)) as Hmod.
  lia.
Qed.

Lemma nonempty_snoc {A} (xs : list A) :
  xs <> [] -> exists front x, xs = front ++ [x].
Proof.
  destruct xs as [|x xs _] using rev_ind; [done|]. by exists xs, x.
Qed.

(** A history at none of whose messages the budget test stops the loop is
    returned as it is. *)
Lemma trimMessages_all_pass (messages : list message) (maxTokens : Z) :
  (forall s1 x s2, messages = s1 ++ x :: s2 ->
     num_gt (total_tokens (x :: s2)) maxTokens = false) ->
  trimMessages messages maxTokens = messages.
Proof.
  intros Hpass.
  assert (Hall : keep_recent
            (rev (map (fun msg => (msg, estimateMessageTokens msg)) messages))
            maxTokens (total_tokens []) [] = messages ++ []).
  { apply keep_recent_all. intros s1 x s2 Hs. rewrite app_nil_r.
    by eapply Hpass. }
  rewrite app_nil_r in Hall. unfold Chat.trimMessages.
  change (Chat.total_tokens ceil_quarter_of_string []) with (Num 0) in Hall.
  destruct messages as [|first rest]; [done|]. by rewrite Hall.
Qed.

Lemma trimMessages_all_fit (messages : list message) (maxTokens : Z) :
  num_le (total_tokens messages) maxTokens = true ->
  trimMessages messages maxTokens = messages.
Proof.
  intros Hfit. apply trimMessages_all_pass.
  by apply passes_suffix_of_fit.
Qed.

(** A single message is always returned as it is. *)
Lemma trimMessages_one (u : message) (maxTokens : Z) :
  trimMessages [u] maxTokens = [u].
Proof.
  pose proof (trimMessages_cases ceil_quarter_of_string [] u maxTokens)
    as (pre & suf & Hsplit & _ & _ & Hres).
  change ([] ++ [u]) with [u] in *.
  destruct Hres as [[Hne ->]|[_ ->]].
  - destruct pre as [|p pre]; [done|].
    injection Hsplit as -> Hsplit. destruct pre; [|done]. by destruct suf.
  - simpl. by destruct (is_user u).
Qed.

(** X2: when no estimate is NaN, trimming changes nothing exactly when
    the history fits the budget or has at most one message (a single
    message is kept even over budget). *)
Theorem trimMessages_unchanged_iff (messages : list message) (maxTokens : Z) :
  Forall (fun x => estimateMessageTokens x <> NaN) messages ->
  trimMessages messages maxTokens = messages <->
  num_le (total_tokens messages) maxTokens = true \/ length messages <= 1.
Proof.
  intros Hnum. split.
  - intros Hsame. destruct (decide (length messages <= 1)) as [|Hlen]; [by right|].
    left. destruct (decide (messages = [])) as [->|Hne]; [simpl in Hlen; lia|].
    destruct (nonempty_snoc messages Hne) as (msgs & m & ->).
    destruct (trimMessages_cases ceil_quarter_of_string msgs m maxTokens)
      as (pre & suf & Hsplit & Hpass & _ & [[Hsuf Htrim]|[_ Htrim]]).
    + rewrite Hsame in Htrim. destruct suf as [|x suf]; [done|].
      specialize (Hpass [] x suf eq_refl). rewrite <- Htrim in Hpass.
      destruct (total_tokens_range ceil_quarter_of_string _ Hnum)
        as [Hinf|(z & Hz & _)].
      * by rewrite Hinf in Hpass.
      * rewrite Hz in *. simpl in *.
        destruct (Z.gtb_spec z maxTokens); [done|]. by apply Z.leb_le.
    + exfalso. rewrite Hsame in Htrim. apply (f_equal length) in Htrim.
      destruct (find is_user (rev (msgs ++ [m]))); simpl in Htrim; lia.
  - intros [Hfit|Hlen]; [by apply trimMessages_all_fit|].
    destruct messages as [|m [|m' rest]]; [done| |simpl in Hlen; lia].
    apply trimMessages_one.
Qed.

(** X3: trimming twice with the same budget gives what trimming once
    gives, also when the emergency fallback answered. *)
Theorem trimMessages_idempotent (messages : list message) (maxTokens : Z) :
  trimMessages (trimMessages messages maxTokens) maxTokens =
    trimMessages messages maxTokens.
Proof.
  destruct (decide (messages = [])) as [->|Hne]; [done|].
  destruct (nonempty_snoc messages Hne) as (msgs & m & ->).
  destruct (trimMessages_cases ceil_quarter_of_string msgs m maxTokens)
    as (pre & suf & Hsplit & Hpass & _ & [[_ ->]|[_ ->]]).
  - by apply trimMessages_all_pass.
  - destruct (find is_user (rev (msgs ++ [m]))); apply trimMessages_one.
Qed.

(** X4: trimming selects among the input messages: the result is a
    sublist of the input (so never longer, and in the input's order), and
    is empty only for the empty input. *)
Theorem trimMessages_sublist (messages : list message) (maxTokens : Z) :
  trimMessages messages maxTokens `sublist_of` messages /\
  (trimMessages messages maxTokens = [] <-> messages = []).
Proof.
  split.
  - destruct (decide (messages = [])) as [->|Hne]; [done|].
    destruct (nonempty_snoc messages Hne) as (msgs & m & ->).
    destruct (trimMessages_cases ceil_quarter_of_string msgs m maxTokens)
      as (pre & suf & Hsplit & _ & _ & [[_ ->]|[_ ->]]).
    + rewrite Hsplit. by apply sublist_inserts_l.
    + pose proof (find_rev_last is_user (msgs ++ [m])) as Hfind.
      destruct (find is_user (rev (msgs ++ [m]))) as [u|].
      * destruct Hfind as (pre' & post & -> & _).
        apply sublist_inserts_l. apply sublist_skip. apply sublist_nil_l.
      * apply sublist_inserts_l. done.
  - split; [|by intros ->].
    intros Hnil. destruct (decide (messages = [])) as [|Hne]; [done|].
    by destruct (trimMessages_nonempty ceil_quarter_of_string messages
                   maxTokens Hne).
Qed.

(** X5: a larger budget never keeps fewer messages. *)
Theorem trimMessages_monotone (messages : list message) (small large : Z) :
  (small <= large)%Z ->
  length (trimMessages messages small) <= length (trimMessages messages large).
Proof.
  intros Hle. destruct (decide (messages = [])) as [->|Hne]; [done|].
  destruct (nonempty_snoc messages Hne) as (msgs & m & ->).
  assert (Hpos : 1 <= length (trimMessages (msgs ++ [m]) large)).
  { pose proof (trimMessages_nonempty ceil_quarter_of_string (msgs ++ [m])
                  large Hne).
    destruct (trimMessages (msgs ++ [m]) large); [done|simpl; lia]. }
  destruct (trimMessages_cases ceil_quarter_of_string msgs m small)
    as (pre & suf & Hsplit & Hpass & _ & [[_ Hsmall]|[_ Hsmall]]);
    rewrite Hsmall; clear Hsmall;
    [|by destruct (find is_user (rev (msgs ++ [m])))].
  destruct (trimMessages_cases ceil_quarter_of_string msgs m large)
    as (pre' & suf' & Hsplit' & _ & Hstop & [[_ Hlarge]|[-> _]]).
  - rewrite Hlarge. clear Hlarge.
    destruct (decide (length suf <= length suf')) as [|Hlonger]; [done|exfalso].
    rewrite Hsplit in Hsplit'.
    apply app_eq_app in Hsplit' as [l [[-> Hs]|[-> Hs]]].
    + apply (f_equal length) in Hs. rewrite length_app in Hs. lia.
    + destruct l as [|y l _] using rev_ind.
      { simpl in Hs. subst suf. lia. }
      rewrite app_assoc in Hstop. specialize (Hstop _ y eq_refl).
      rewrite <- app_assoc in Hs. simpl in Hs.
      pose proof (Hpass l y suf' Hs) as Hy.
      by rewrite (num_gt_mono _ small large Hle Hy) in Hstop.
  - rewrite app_nil_r in Hsplit'. subst pre'.
    destruct suf as [|x suf _] using rev_ind; [simpl; lia|].
    rewrite app_assoc in Hsplit. apply app_inj_tail in Hsplit as [-> <-].
    specialize (Hstop (pre ++ suf) m).
    rewrite <- app_assoc in Hstop. specialize (Hstop eq_refl).
    pose proof (Hpass suf m [] eq_refl) as Hm.
    by rewrite (num_gt_mono _ small large Hle Hm) in Hstop.
Qed.

End TrimmingMore.

Lemma trimMessages_unchanged_iff_witness :
  trimMessages no_conversion [msg_long; msg_short] 40 = [msg_long; msg_short] /\
  trimMessages no_conversion [msg_long; msg_short] 20 <> [msg_long; msg_short].
Proof.
  pose proof (trimMessages_unchanged_iff no_conversion [msg_long; msg_short] 40)
    as Hfits.
  pose proof (trimMessages_unchanged_iff no_conversion [msg_long; msg_short] 20)
    as Htight.
  split.
  - apply Hfits; [repeat constructor; vm_compute; discriminate|].
    left. reflexivity.
  - intros Hsame. apply Htight in Hsame as [Hfit|Hlen].
    + vm_compute in Hfit. discriminate.
    + simpl in Hlen. lia.
    + repeat constructor; vm_compute; discriminate.
Defined.

Lemma trimMessages_monotone_witness :
  length (trimMessages no_conversion [msg_long; msg_short] 20)
  <= length (trimMessages no_conversion [msg_long; msg_short] 40).
Proof. apply trimMessages_monotone. lia. Defined.

(** ** Metadata stripping, again *)

Section StripMore.

(** What the replacer lets through is JSON data in which no array holds a
    string starting with [rs_]. *)
Lemma clean_property_settled (v : value) :
  forall key v', clean_property key v = Some v' ->
                 is_json v' = true /\ no_rs_elements v' = true.
Proof.
  induction v as [| |b|n|s|xs IH|fs IH] using value_nested_ind; intros key v';
    simpl; destruct (replacer_drops key _); try discriminate;
    try (intros [= <-]; done).
  - intros [= <-]. simpl. generalize 0.
    induction IH as [|x xs Hx _ IHxs]; intros i; simpl; [done|].
    destruct (IHxs (S i)) as [-> ->]. rewrite !andb_true_r.
    destruct (clean_property (index_key i) x) as [x'|] eqn:Hc; simpl; [|done].
    destruct (Hx _ _ Hc) as [-> ->].
    pose proof (clean_property_kept _ _ _ Hc) as Hk.
    rewrite replacer_drops_index in Hk. by rewrite Hk.
  - intros [= <-]. simpl.
    induction IH as [|[k x] fs Hx _ IHfs]; simpl; [done|].
    simpl in Hx. destruct IHfs as [Hj Hr].
    destruct (clean_property k x) as [x'|] eqn:Hc; [|done].
    simpl. destruct (Hx _ _ Hc) as [-> ->]. by rewrite Hj, Hr.
Qed.

(** Data that is already clean is left as it is. *)
Lemma strip_spec_settled (v : value) :
  no_metadata v = true -> no_rs_elements v = true -> strip_spec v = v.
Proof.
  induction v as [| |b|n|s|xs IH|fs IH] using value_nested_ind;
    intros Hm Hr; try done; simpl in *; f_equal.
  - induction IH as [|x xs Hx _ IHxs]; simpl in *; [done|].
    apply andb_prop in Hm as [Hmx Hmxs].
    apply andb_prop in Hr as [Hrx Hrxs]. apply andb_prop in Hrx as [Hs Hrx].
    apply negb_true_iff in Hs. rewrite Hs, (Hx Hmx Hrx). f_equal. by apply IHxs.
  - induction IH as [|[k x] fs Hx _ IHfs]; simpl in *; [done|].
    apply andb_prop in Hm as [Hmx Hmfs]. apply andb_prop in Hmx as [Hd Hmx].
    apply andb_prop in Hr as [Hrx Hrfs].
    apply negb_true_iff in Hd. unfold replacer_drops in Hd. rewrite Hd.
    rewrite (Hx Hmx Hrx). f_equal. by apply IHfs.
Qed.

Lemma strip_part_settled (part : value) :
  is_json part = true -> no_metadata part = true ->
  no_rs_elements part = true -> strip_part part = part.
Proof.
  intros Hj Hm Hr. rewrite strip_part_json by done.
  destruct (is_object part); [|done]. by apply strip_spec_settled.
Qed.

Lemma strip_part_result (part : value) :
  is_object part = true ->
  is_json (strip_part part) = true /\ no_metadata (strip_part part) = true /\
  no_rs_elements (strip_part part) = true.
Proof.
  intros Hobj. split; [|split; [by apply strip_part_no_metadata|]].
  all: unfold strip_part; rewrite Hobj.
  all: destruct (clean_property [] part) as [part'|] eqn:Hc;
    [by destruct (clean_property_settled _ _ _ Hc)|].
  all: destruct part; try discriminate; simpl in Hc;
    destruct (replacer_drops [] _) eqn:Hd; try discriminate;
    by vm_compute in Hd.
Qed.

(** X6: stripping is idempotent: a second pass over the stripped parts
    changes nothing. *)
Theorem stripResponseMetadata_idempotent (parts : value) :
  stripResponseMetadata (stripResponseMetadata parts) =
    stripResponseMetadata parts.
Proof.
  destruct parts as [| | | | |ps|]; try done. simpl. f_equal.
  rewrite map_map. apply map_ext. intros part.
  destruct (is_object part) eqn:Hobj.
  - destruct (strip_part_result part Hobj) as (Hj & Hm & Hr).
    by apply strip_part_settled.
  - unfold strip_part. rewrite Hobj. by rewrite Hobj.
Qed.

(** X7: parts that are JSON data without any of the six property names,
    without a string property value starting with [rs_] and without a
    string array element starting with [rs_] pass through unchanged. *)
Theorem stripResponseMetadata_clean_unchanged (parts : list value) :
  forallb (fun part => is_json part && no_metadata part && no_rs_elements part)
    parts = true ->
  stripResponseMetadata (VArr parts) = VArr parts.
Proof.
  intros Hclean. simpl. f_equal. rewrite <- (map_id parts) at 2.
  apply map_ext_in. intros part Hin.
  rewrite forallb_forall in Hclean. specialize (Hclean part Hin).
  apply andb_prop in Hclean as [Hjm Hr]. apply andb_prop in Hjm as [Hj Hm].
  by apply strip_part_settled.
Qed.

Lemma stripResponseMetadata_clean_unchanged_witness :
  stripResponseMetadata (VArr [text_part (js "hi"); pending_tool_part])
    = VArr [text_part (js "hi"); pending_tool_part].
Proof. apply stripResponseMetadata_clean_unchanged. reflexivity. Defined.

End StripMore.

(** ** Counting tool calls and summarising *)

Section SummarizeMore.

Variable JSON_parse : jsstring -> option value.

(** The tool parts of one message. *)
Lemma count_parts (parts : list value) (count : nat) :
  fold_left (fun count part => if is_tool_part part then S count else count)
            parts count
  = count + length (filter (fun part => is_tool_part part = true) parts).
Proof.
  revert count. induction parts as [|part parts IH]; intros count; simpl.
  - lia.
  - rewrite IH, filter_cons. destruct (is_tool_part part) eqn:Ht.
    + rewrite decide_True by done. simpl. lia.
    + rewrite decide_False by done. lia.
Qed.

Lemma count_messages (messages : list message) (count : nat) :
  fold_left
    (fun count msg =>
       match field (js "parts") msg with
       | VArr parts =>
           fold_left (fun count part =>
                        if is_tool_part part then S count else count)
                     parts count
       | _ => count
       end)
    messages count
  = count + countToolCalls messages.
Proof.
  unfold countToolCalls. revert count.
  induction messages as [|msg messages IH]; intros count; simpl; [lia|].
  rewrite IH, (IH (match field (js "parts") msg with VArr _ => _ | _ => 0 end)).
  destruct (field (js "parts") msg); try lia.
  rewrite !count_parts. lia.
Qed.

Lemma count_messages_app (older recent : list message) :
  countToolCalls (older ++ recent) =
    countToolCalls older + countToolCalls recent.
Proof.
  unfold countToolCalls at 1. rewrite fold_left_app.
  fold (countToolCalls older). apply count_messages.
Qed.

(** X8: the count of tool calls is additive over concatenation, and the
    count of one message is the number of its parts that are objects with
    a type starting with [tool-] (none when [parts] is not an array). *)
Theorem countToolCalls_app (older recent : list message) (msg : message) :
  countToolCalls (older ++ recent) =
    countToolCalls older + countToolCalls recent /\
  countToolCalls [msg] =
    match field (js "parts") msg with
    | VArr parts => length (filter (fun part => is_tool_part part = true) parts)
    | _ => 0
    end.
Proof.
  split.
  - apply count_messages_app.
  - unfold countToolCalls. simpl. destruct (field (js "parts") msg); try done.
    by rewrite count_parts.
Qed.




End SummarizeMore.


(** ** The part filters *)

Section FiltersMore.

Lemma strip_image_data_clears (note : jsstring -> jsstring) (part part' : value) :
  strip_image_data note part = Some part' ->
  carries_image_data part' = false.
Proof.
  unfold carries_image_data.
  destruct part as [| | | | | |pfs]; cbn [strip_image_data];
    try (intros [= <-]; done).
  destruct (str_eq (field (js "type") pfs) (js "tool-generateImage")) eqn:Hty;
    [|intros [= <-]; cbn [get]; by rewrite Hty].
  destruct (field (js "result") pfs) as [| | | | | |rfs] eqn:Hres;
    try (intros [= <-]; cbn [get]; by rewrite Hres, andb_false_r).
  destruct (truthy (field (js "imageData") rfs)) eqn:Himg;
    [|intros [= <-]; cbn [get]; by rewrite Hres, Himg, andb_false_r].
  intros [= <-]. cbn [get]. rewrite (field_set_field_eq (js "result")).
  rewrite (field_set_field_ne (js "_saved") (js "imageData")) by done.
  rewrite (field_set_field_eq (js "imageData")).
  by rewrite andb_false_r.
Qed.

Lemma filter_parts_clears (keep : value -> bool) (note : jsstring -> jsstring)
    (parts saved : list value) :
  filter_parts keep note parts = Some saved ->
  existsb carries_image_data saved = false.
Proof.
  unfold filter_parts. intros Hsaved. apply mapM_Some in Hsaved.
  induction Hsaved as [|x y xs ys Hxy _ IH]; [done|].
  simpl. by rewrite (strip_image_data_clears note x y Hxy), IH.
Qed.

(** X11: whatever passes a part filter of the handler (the two request
    filters and the filter of [onFinish]) carries no image data: no
    [tool-generateImage] part is left whose result object has a truthy
    [imageData]. *)
Theorem filtered_parts_carry_no_image_data :
  (forall (message : message) (content : value),
     contentToSave message = Some content ->
     forall parts, field (js "parts") message = VArr parts ->
     exists saved, content = VArr saved /\
                   existsb carries_image_data saved = false) /\
  (forall (newMessage filtered : message),
     filteredNewMessage newMessage = Some filtered ->
     exists parts', field (js "parts") filtered = VArr parts' /\
                    existsb carries_image_data parts' = false) /\
  (forall (msg filtered : message) (parts : list value),
     field (js "parts") msg = VArr parts ->
     filteredFirstMessage msg = Some filtered ->
     exists parts', field (js "parts") filtered = VArr parts' /\
                    existsb carries_image_data parts' = false).
Proof.
  split; [|split].
  - intros message content Hc parts Hparts. unfold contentToSave in Hc.
    rewrite Hparts in Hc.
    destruct (filter_parts _ _ parts) as [saved|] eqn:Hsaved; [|done].
    injection Hc as <-. exists saved. split; [done|].
    by eapply filter_parts_clears.
  - intros newMessage filtered Hf. unfold filteredNewMessage in Hf.
    destruct (filter_parts _ _ _) as [saved|] eqn:Hsaved; [|done].
    injection Hf as <-. exists saved. rewrite field_set_field_eq.
    split; [done|]. by eapply filter_parts_clears.
  - intros msg filtered parts Hparts Hf. unfold filteredFirstMessage in Hf.
    rewrite Hparts in Hf.
    destruct (filter_parts _ _ parts) as [saved|] eqn:Hsaved; [|done].
    injection Hf as <-. exists saved. rewrite field_set_field_eq.
    split; [done|]. by eapply filter_parts_clears.
Qed.

Lemma filtered_parts_carry_no_image_data_witness :
  exists saved,
    contentToSave msg_assistant_image = Some (VArr saved) /\
    existsb carries_image_data saved = false /\
    existsb carries_image_data [image_part] = true.
Proof.
  destruct (proj1 filtered_parts_carry_no_image_data msg_assistant_image
              (VArr [text_part (js "done");
                     VObj (set_field (js "result")
                       (VObj (set_field (js "_saved")
                          (VStr (saved_note_onFinish (js "img-7")))
                          (set_field (js "imageData") VUndefined
                             [(js "success", VBool true);
                              (js "imageId", VStr (js "img-7"));
                              (js "imageData", VStr (js "iVBORw0KGgo="))])))
                       [(js "type", VStr (js "tool-generateImage"));
                        (js "toolCallId", VStr (js "call_2"));
                        (js "result",
                         VObj [(js "success", VBool true);
                               (js "imageId", VStr (js "img-7"));
                               (js "imageData", VStr (js "iVBORw0KGgo="))])])])
              eq_refl
              [text_part (js "done"); pending_tool_part; image_part] eq_refl)
    as (saved & Hc & Hnone).
  exists saved. injection Hc as <-. repeat split; reflexivity.
Defined.

Lemma tool_not_rs (ty : jsstring) :
  startsWith ty (js "tool-") = true -> startsWith ty (js "rs_") = false.
Proof.
  unfold startsWith. intros Ht. apply bool_decide_eq_true in Ht as [k ->].
  apply bool_decide_eq_false. intros [k' Hk]. discriminate Hk.
Qed.

Lemma allowed_type_kept (ty : jsstring) :
  bool_decide (ty = js "text") || startsWith ty (js "tool-") = true ->
  clean_property (js "type") (VStr ty) = Some (VStr ty).
Proof.
  intros Hty. simpl. unfold replacer_drops. simpl.
  replace (startsWith ty (js "rs_")) with false; [done|].
  apply orb_prop in Hty as [Htext|Htool].
  - apply bool_decide_eq_true in Htext as ->. done.
  - symmetry. by apply tool_not_rs.
Qed.

Lemma replacer_drops_top (v : value) :
  is_object v = true -> replacer_drops [] v = false.
Proof. by destruct v. Qed.

(** The object that [strip_part] gives for an object: a property that the
    replacer lets through is found again. *)
Lemma strip_part_object (pfs : obj) :
  exists pfs',
    strip_part (VObj pfs) = VObj pfs' /\
    forall k x x', assoc k pfs = Some x -> clean_property k x = Some x' ->
                   assoc k pfs' = Some x'.
Proof.
  unfold strip_part. cbn [is_object clean_property].
  rewrite replacer_drops_top by done. cbn [default].
  eexists. split; [reflexivity|].
  induction pfs as [|[k0 x0] pfs IH]; intros k x x'; [done|].
  cbn [assoc]. destruct (decide (k0 = k)) as [->|Hne].
  - intros [= ->] Hc. rewrite Hc. cbn [assoc]. by rewrite decide_True.
  - intros Ha Hc. destruct (clean_property k0 x0).
    + cbn [assoc]. rewrite decide_False by done. by eapply IH.
    + by eapply IH.
Qed.

Lemma keep_frontend_allowed (part : value) :
  keep_frontend_part part = allowed_part part.
Proof. unfold keep_frontend_part, allowed_part. by destruct (is_object part). Qed.

Lemma strip_image_data_allowed (note : jsstring -> jsstring) (part part' : value) :
  allowed_part part = true -> strip_image_data note part = Some part' ->
  allowed_part part' = true.
Proof.
  destruct part as [| | | | | |pfs]; try (intros ? [= <-]; done).
  intros Ha Hs.
  destruct (strip_image_data_object note pfs) as (pfs' & Hs' & Hty & _).
  rewrite Hs' in Hs. injection Hs as <-.
  unfold allowed_part in *. simpl in *. by rewrite Hty.
Qed.

Lemma filter_parts_allowed (note : jsstring -> jsstring)
    (parts saved : list value) :
  filter_parts keep_frontend_part note parts = Some saved ->
  forallb allowed_part saved = true.
Proof.
  unfold filter_parts. intros Hsaved. apply mapM_Some in Hsaved.
  assert (Hkept : Forall (fun p => allowed_part p = true)
                    (filter (fun part => keep_frontend_part part = true) parts)).
  { apply Forall_forall. intros p Hin. apply list_elem_of_filter in Hin as [Hk _].
    by rewrite <- keep_frontend_allowed. }
  induction Hsaved as [|x y xs ys Hxy _ IH]; [done|].
  apply Forall_cons in Hkept as [Hx Hxs]. simpl.
  by rewrite (strip_image_data_allowed note x y Hx Hxy), IH.
Qed.

Lemma loaded_part_allowed (part : value) :
  keep_loaded_part part = true -> allowed_part (strip_part part) = true.
Proof.
  unfold keep_loaded_part, allowed_part.
  destruct part as [| | | | |xs|pfs]; try done. intros Hkeep.
  destruct (strip_part_object pfs) as (pfs' & -> & Hfind).
  cbn [is_object negb get orb] in *. unfold field in *.
  destruct (assoc (js "type") pfs) as [[| | | |ty| |]|] eqn:Hty; try done.
  cbn [default str_eq str_startsWith] in Hkeep.
  assert (Hallowed : bool_decide (ty = js "text") || startsWith ty (js "tool-")
                     = true).
  { simpl in Hkeep. destruct (bool_decide (ty = js "text")); [done|].
    by destruct (startsWith ty (js "tool-")). }
  rewrite (Hfind _ _ (VStr ty) Hty (allowed_type_kept ty Hallowed)).
  exact Hallowed.
Qed.

(** X12: every message of the history that the handler builds from a
    request has, in its parts array, only text parts, tool parts and
    values that are not objects: reasoning, step and image parts reach the
    model neither from the frontend nor from the database. *)
Theorem build_messages_allowed_parts (sessionId : value)
    (frontendMessages : list message) (dbMessages : option (list db_message))
    (messages : list message) :
  build_messages sessionId frontendMessages dbMessages = Some messages ->
  Forall (fun m => forall parts, field (js "parts") m = VArr parts ->
                                 forallb allowed_part parts = true)
         messages.
Proof.
  unfold build_messages.
  destruct (truthy sessionId && (1 <? length frontendMessages)).
  - destruct (last frontendMessages) as [newMessage|]; [|done].
    unfold filteredNewMessage.
    destruct (filter_parts _ _ _) as [saved|] eqn:Hsaved; [|done].
    intros [= <-]. apply Forall_app. split.
    + apply Forall_forall. intros m Hin.
      apply list_elem_of_fmap in Hin as (row & -> & _).
      intros parts. unfold loadedMessage.
      change (field (js "parts") ?m) with
        (stripResponseMetadata
           match db_content row with
           | VArr ps => VArr (filter (fun part => keep_loaded_part part = true) ps)
           | _ => db_content row
           end).
      destruct (db_content row) as [| | | | |ps|]; try done.
      intros [= <-]. apply forallb_forall. intros p Hin.
      apply list_elem_of_In, list_elem_of_fmap in Hin as (p0 & -> & Hp0).
      apply list_elem_of_filter in Hp0 as [Hk _]. by apply loaded_part_allowed.
    + apply Forall_singleton. intros parts. rewrite field_set_field_eq.
      intros [= <-]. by eapply filter_parts_allowed.
  - intros Hm. apply mapM_Some in Hm.
    induction Hm as [|x y xs ys Hxy _ IH]; [done|]. constructor; [|done].
    unfold filteredFirstMessage in Hxy.
    destruct (field (js "parts") x) as [| | | | |ps|] eqn:Hparts;
      try (injection Hxy as <-; intros parts; rewrite field_set_field_eq;
           discriminate).
    destruct (filter_parts _ _ ps) as [saved|] eqn:Hsaved; [|done].
    injection Hxy as <-. intros parts. rewrite field_set_field_eq.
    intros [= <-]. by eapply filter_parts_allowed.
Qed.

Lemma build_messages_allowed_parts_witness :
  Forall (fun m => forall parts, field (js "parts") m = VArr parts ->
                                 forallb allowed_part parts = true)
         [loadedMessage stored_row; msg_user_tool].
Proof.
  apply (build_messages_allowed_parts (VStr (js "s1"))
           [msg_long; msg_user_tool] (Some [stored_row])).
  reflexivity.
Defined.

Lemma present_kept (k : jsstring) (x : value) :
  present x = true -> replacer_drops k x = false ->
  exists x', clean_property k x = Some x' /\ present x' = true.
Proof.
  intros Hp Hd. destruct x; try done; simpl; rewrite Hd; eauto.
Qed.

Lemma result_kept (k : jsstring) (pfs pfs' : obj) :
  bool_decide (k ∈ metadata_keys) = false ->
  (forall k x x', assoc k pfs = Some x -> clean_property k x = Some x' ->
                  assoc k pfs' = Some x') ->
  present (field k pfs) = true ->
  str_startsWith (field k pfs) (js "rs_") = false ->
  present (field k pfs') = true.
Proof.
  intros Hk Hfind Hp Hrs. unfold field in *.
  destruct (assoc k pfs) as [x|] eqn:Hx; [|done]. simpl in *.
  destruct (present_kept k x Hp) as (x' & Hc & Hp').
  { unfold replacer_drops. by rewrite Hk, Hrs. }
  by rewrite (Hfind _ _ _ Hx Hc).
Qed.

Lemma loaded_part_complete (part : value) :
  keep_loaded_part part = true ->
  str_startsWith (get (js "output") part) (js "rs_") = false ->
  str_startsWith (get (js "result") part) (js "rs_") = false ->
  incomplete_tool_part (strip_part part) = false.
Proof.
  unfold keep_loaded_part, incomplete_tool_part, is_tool_part.
  destruct part as [| | | | |xs|pfs]; try done. intros Hkeep Hout Hres.
  destruct (strip_part_object pfs) as (pfs' & -> & Hfind).
  cbn [is_object negb get andb] in *.
  destruct (assoc (js "type") pfs) as [[| | | |ty| |]|] eqn:Hty;
    try (unfold field in Hkeep; rewrite Hty in Hkeep; done).
  assert (Hallowed : bool_decide (ty = js "text") || startsWith ty (js "tool-")
                     = true).
  { unfold field in Hkeep. rewrite Hty in Hkeep. simpl in Hkeep.
    destruct (bool_decide (ty = js "text")); [done|].
    by destruct (startsWith ty (js "tool-")). }
  assert (Hty' : field (js "type") pfs' = VStr ty).
  { unfold field.
    by rewrite (Hfind _ _ (VStr ty) Hty (allowed_type_kept ty Hallowed)). }
  rewrite Hty'. unfold field in Hkeep. rewrite Hty in Hkeep. simpl in *.
  destruct (bool_decide (ty = js "text")) eqn:Htext.
  { apply bool_decide_eq_true in Htext as ->. done. }
  destruct (startsWith ty (js "tool-")); [|done]. simpl.
  apply negb_false_iff. unfold has_output_or_result in *. cbn [get] in *.
  apply orb_prop in Hkeep as [Hp|Hp].
  - by rewrite (result_kept (js "output") pfs pfs' eq_refl Hfind Hp Hout).
  - rewrite (result_kept (js "result") pfs pfs' eq_refl Hfind Hp Hres).
    by rewrite orb_true_r.
Qed.

(** X13: a message reloaded from the database has no tool part without a
    non-null [output] or [result], provided that no stored part has a
    string starting with [rs_] as its [output] or [result] (such a string
    is removed by the metadata stripping that follows the filter). *)
Theorem reloaded_tool_parts_complete (row : db_message) (stored : list value) :
  db_content row = VArr stored ->
  forallb (fun part =>
             negb (str_startsWith (get (js "output") part) (js "rs_"))
             && negb (str_startsWith (get (js "result") part) (js "rs_")))
          stored = true ->
  exists parts,
    field (js "parts") (loadedMessage row) = VArr parts /\
    existsb incomplete_tool_part parts = false.
Proof.
  intros Hc Hok. unfold loadedMessage. rewrite Hc.
  eexists. split; [reflexivity|]. clear Hc.
  induction stored as [|part stored IH]; [done|].
  simpl in Hok. apply andb_prop in Hok as [Hpart Hrest].
  apply andb_prop in Hpart as [Hout Hres].
  apply negb_true_iff in Hout, Hres.
  rewrite filter_cons. destruct (decide (keep_loaded_part part = true)) as [Hk|_].
  - simpl. rewrite (loaded_part_complete part Hk Hout Hres). by apply IH.
  - by apply IH.
Qed.

Lemma reloaded_tool_parts_complete_witness :
  exists parts,
    field (js "parts") (loadedMessage stored_row) = VArr parts /\
    existsb incomplete_tool_part parts = false.
Proof.
  apply (reloaded_tool_parts_complete stored_row
           [text_part (js "earlier"); pending_tool_part;
            VObj [(js "type", VStr (js "reasoning"))]; part_with_ids]);
    reflexivity.
Defined.

Lemma filter_none (l : list message) :
  length (filter (fun m => is_user m = true) l) = 0 <->
  forallb (fun m => negb (is_user m)) l = true.
Proof.
  induction l as [|x l IH]; [done|].
  rewrite filter_cons. simpl. destruct (is_user x) eqn:Hx.
  - rewrite decide_True by done. simpl. split; [lia|done].
  - rewrite decide_False by done. simpl. exact IH.
Qed.

(** X14: a request counts against the rate limit ([isUserInitiated])
    exactly when its history ends with a user message and holds no other
    user message. *)
Theorem isUserInitiated_first_user_message (messages : list message) :
  isUserInitiated messages = true <->
  exists earlier u,
    messages = earlier ++ [u] /\ is_user u = true /\
    forallb (fun m => negb (is_user m)) earlier = true.
Proof.
  unfold isUserInitiated. split.
  - intros H. apply andb_prop in H as [Hlast Hcount].
    destruct messages as [|m messages _] using rev_ind; [done|].
    rewrite last_snoc in Hlast. exists messages, m. split; [done|].
    split; [done|]. apply filter_none.
    rewrite filter_app, length_app, filter_cons, decide_True in Hcount by done.
    apply Nat.eqb_eq in Hcount. simpl in Hcount. lia.
  - intros (earlier & u & -> & Hu & Hnone).
    rewrite last_snoc, Hu. simpl.
    rewrite filter_app, length_app, filter_cons, decide_True by done.
    apply filter_none in Hnone. rewrite Hnone. done.
Qed.


End FiltersMore.

(** ** Reloading a conversation *)

Section Reload.

(** The reload filter in words: what is not an object, text parts, and
    tool parts that have an output or a result. *)
Lemma keep_loaded_part_spec (part : value) :
  keep_loaded_part part =
    allowed_part part && negb (incomplete_tool_part part).
Proof.
  unfold keep_loaded_part, allowed_part, incomplete_tool_part, is_tool_part.
  destruct (is_object part); simpl; [|done].
  destruct (get (js "type") part) as [| | | |ty| |]; simpl; try done.
  destruct (bool_decide (ty = js "text")) eqn:Htext; simpl.
  - apply bool_decide_eq_true in Htext as ->. by rewrite startsWith_text_tool.
  - destruct (startsWith ty (js "tool-")); simpl; [|done].
    by rewrite negb_involutive.
Qed.

Lemma strip_part_clean (part : value) :
  no_metadata (strip_part part) = true \/ is_object part = false.
Proof.
  destruct (is_object part) eqn:Hobj; [left|by right].
  by apply strip_part_no_metadata.
Qed.

Lemma set_field_same (k : jsstring) (v : value) (fs : obj) :
  assoc k fs = Some v -> set_field k v fs = fs.
Proof.
  induction fs as [|[k' v'] fs IH]; simpl; [done|].
  destruct (decide (k' = k)) as [->|Hne]; [by intros [= ->]|].
  intros H. by rewrite IH.
Qed.

(** A part that is not [null] and carries no image data is returned as it
    is. *)
Lemma strip_image_data_clean (note : jsstring -> jsstring) (part : value) :
  present part = true -> carries_image_data part = false ->
  strip_image_data note part = Some part.
Proof.
  unfold carries_image_data.
  destruct part as [| | | | | |pfs]; try done. simpl. intros _.
  destruct (str_eq _ _); [|done]. simpl.
  destruct (field (js "result") pfs); try done. by intros ->.
Qed.

Lemma filter_parts_clean (note : jsstring -> jsstring) (parts : list value) :
  forallb (fun part => present part && allowed_part part
                       && negb (carries_image_data part)) parts = true ->
  filter_parts keep_frontend_part note parts = Some parts.
Proof.
  unfold filter_parts. induction parts as [|part parts IH]; [done|].
  simpl. intros H. apply andb_prop in H as [Hpart Hparts].
  apply andb_prop in Hpart as [Hpa Hc]. apply andb_prop in Hpa as [Hp Ha].
  apply negb_true_iff in Hc.
  rewrite filter_cons, decide_True by by rewrite keep_frontend_allowed.
  simpl. rewrite (strip_image_data_clean note part Hp Hc). simpl.
  by rewrite (IH Hparts).
Qed.

Lemma filter_parts_defined (keep : value -> bool) (note : jsstring -> jsstring)
    (parts : list value) :
  forallb present parts = true ->
  exists kept,
    filter_parts keep note parts = Some kept /\
    Forall2 (fun part part' => strip_image_data note part = Some part')
            (filter (fun part => keep part = true) parts) kept.
Proof.
  intros Hdef. unfold filter_parts.
  assert (Hkept : forallb present (filter (fun part => keep part = true) parts)
                  = true).
  { apply forallb_forall. intros part Hin.
    apply list_elem_of_In, list_elem_of_filter in Hin as [_ Hin].
    rewrite forallb_forall in Hdef. apply Hdef. by apply list_elem_of_In. }
  induction (filter (fun part => keep part = true) parts) as [|part rest IH].
  - by exists [].
  - simpl in Hkept. apply andb_prop in Hkept as [Hp Hrest].
    destruct (strip_image_data_defined note part Hp) as [part' Hpart'].
    destruct (IH Hrest) as (kept & Hk & Hall).
    exists (part' :: kept). simpl. rewrite Hpart'. simpl. rewrite Hk. simpl.
    split; [done|]. by constructor.
Qed.

(** C6 (as amended): for a request with a session id and more than one
    frontend message, the history is the messages reloaded from the
    database followed by the last frontend message with its parts
    filtered, and nothing else of the frontend messages reaches the
    history or the model input.  A reloaded message has the id and role of
    its row and, of the stored parts, in order, those that are not objects,
    the text parts and the tool parts with an output or a result, each
    stripped of response metadata: no reloaded part is of another type or
    keeps metadata.  The last frontend message, none of its parts being
    [null], keeps, in order, its parts that are not objects, its text
    parts and its tool parts, the image data of a generated image removed;
    it is appended as it is when there is nothing to filter. *)
Theorem reload_uses_last_frontend_message (sessionId : value)
    (frontendMessages : list message) (newMessage : message)
    (dbMessages : option (list db_message)) :
  truthy sessionId = true ->
  1 < length frontendMessages ->
  last frontendMessages = Some newMessage ->
  build_messages sessionId frontendMessages dbMessages =
    (filtered ← filteredNewMessage newMessage;
     Some (map loadedMessage (default [] dbMessages) ++ [filtered])) /\
  (forall row stored,
     db_content row = VArr stored ->
     exists loaded,
       loadedMessage row =
         [(js "id", db_id row); (js "role", db_role row);
          (js "parts", VArr loaded)] /\
       loaded =
         map strip_part
           (filter (fun part =>
                      allowed_part part && negb (incomplete_tool_part part)
                      = true) stored) /\
       forallb allowed_part loaded = true /\
       forallb no_metadata loaded = true) /\
  (forall newParts,
     match field (js "parts") newMessage with
     | VArr ps => ps
     | _ => []
     end = newParts ->
     forallb present newParts = true ->
     exists kept,
       filteredNewMessage newMessage =
         Some (set_field (js "parts") (VArr kept) newMessage) /\
       Forall2 (fun part part' => strip_image_data saved_note part = Some part')
               (filter (fun part => allowed_part part = true) newParts) kept /\
       forallb allowed_part kept = true /\
       existsb carries_image_data kept = false) /\
  (forall newParts,
     field (js "parts") newMessage = VArr newParts ->
     forallb (fun part => present part && allowed_part part
                          && negb (carries_image_data part)) newParts = true ->
     filteredNewMessage newMessage = Some newMessage) /\
  (forall frontendMessages',
     1 < length frontendMessages' ->
     last frontendMessages' = Some newMessage ->
     build_messages sessionId frontendMessages' dbMessages =
       build_messages sessionId frontendMessages dbMessages /\
     forall ceil_quarter_of_string JSON_parse now,
       model_input ceil_quarter_of_string JSON_parse now <$>
         build_messages sessionId frontendMessages' dbMessages =
       model_input ceil_quarter_of_string JSON_parse now <$>
         build_messages sessionId frontendMessages dbMessages).
Proof.
  intros Hsid Hlen Hlast.
  assert (Hbuild : forall fm, 1 < length fm -> last fm = Some newMessage ->
            build_messages sessionId fm dbMessages =
              (filtered ← filteredNewMessage newMessage;
               Some (map loadedMessage (default [] dbMessages) ++ [filtered]))).
  { intros fm Hfm Hl. unfold build_messages.
    rewrite Hsid, (proj2 (Nat.ltb_lt _ _) Hfm), Hl. done. }
  split; [by apply Hbuild|]. split; [|split; [|split]].
  - intros row stored Hc. eexists. split; [|split; [reflexivity|]].
    + unfold loadedMessage. rewrite Hc. simpl. do 6 f_equal.
      apply list_filter_iff. intros part.
      by rewrite keep_loaded_part_spec.
    + split; apply forallb_forall; intros part' Hin;
        apply list_elem_of_In, list_elem_of_fmap in Hin as (part & -> & Hin);
        apply list_elem_of_filter in Hin as [Hkeep _];
        rewrite <- keep_loaded_part_spec in Hkeep.
      * by apply loaded_part_allowed.
      * destruct (strip_part_clean part) as [|Hprim]; [done|].
        unfold strip_part. rewrite Hprim. by destruct part.
  - intros newParts Hparts Hdef.
    destruct (filter_parts_defined keep_frontend_part saved_note newParts Hdef)
      as (kept & Hkept & Hall).
    exists kept. unfold filteredNewMessage. rewrite Hparts, Hkept.
    split; [done|]. split; [|split].
    + rewrite (list_filter_iff _ (fun part => keep_frontend_part part = true));
        [exact Hall|].
      intros part. by rewrite keep_frontend_allowed.
    + by eapply filter_parts_allowed.
    + by eapply filter_parts_clears.
  - intros newParts Hparts Hclean. unfold filteredNewMessage. rewrite Hparts.
    rewrite (filter_parts_clean saved_note newParts Hclean). simpl.
    f_equal. apply set_field_same. unfold field in Hparts.
    destruct (assoc (js "parts") newMessage) as [v|]; [|done].
    simpl in Hparts. by rewrite Hparts.
  - intros fm' Hfm' Hl'. rewrite !Hbuild by done. done.
Qed.

Lemma reload_uses_last_frontend_message_witness :
  build_messages (VStr (js "s1")) [msg_long; msg_user_tool] (Some [stored_row])
    = Some [loadedMessage stored_row; msg_user_tool] /\
  (exists loaded,
     loadedMessage stored_row =
       [(js "id", VStr (js "d1")); (js "role", VStr (js "assistant"));
        (js "parts", VArr loaded)] /\
     length loaded = 2 /\
     forallb allowed_part loaded = true /\
     forallb no_metadata loaded = true) /\
  build_messages (VStr (js "s1")) [msg_short; msg_short; msg_user_tool]
    (Some [stored_row])
    = build_messages (VStr (js "s1")) [msg_long; msg_user_tool]
        (Some [stored_row]).
Proof.
  destruct (reload_uses_last_frontend_message (VStr (js "s1"))
              [msg_long; msg_user_tool] msg_user_tool (Some [stored_row]))
    as (Hbuild & Hloaded & _ & Hsame & Hearlier).
  - reflexivity.
  - simpl. lia.
  - reflexivity.
  - split; [|split].
    + rewrite Hbuild.
      rewrite (Hsame [text_part (js "hi"); pending_tool_part]); reflexivity.
    + destruct (Hloaded stored_row _ eq_refl) as (loaded & Hrow & Hparts & Ha & Hm).
      exists loaded. split; [exact Hrow|]. split; [|by split].
      rewrite Hparts. reflexivity.
    + apply Hearlier; [simpl; lia|reflexivity].
Defined.

(** C6 as stated fails: the message appended to the reloaded history is
    not the last frontend message itself when that message holds a part
    that the handler filters; here the reasoning part of the last message
    does not reach the history. *)
Lemma last_frontend_message_is_filtered :
  build_messages (VStr (js "s1")) [msg_long; msg_assistant_reasoning]
    (Some [stored_row])
    = Some [loadedMessage stored_row;
            [(js "id", VStr (js "a3")); (js "role", VStr (js "assistant"));
             (js "parts", VArr [text_part (js "Parks are open.")])]] /\
  field (js "parts") msg_assistant_reasoning
    = VArr [reasoning_part; text_part (js "Parks are open.")].
Proof. split; reflexivity. Qed.

End Reload.

(** ** The /api/eco-rag route handler, again *)

Section EcoRagMore.

Context {number : Type}.
Variable toFixed4 : number -> jsstring.
Variable one_minus : number -> number.

#[local] Abbreviation handle := (POST toFixed4 one_minus).

Lemma trim_start_nil (q : jsstring) :
  trim_start q = [] -> forallb is_whitespace q = true.
Proof.
  induction q as [|c q IH]; [done|]. simpl.
  destruct (is_whitespace c); [exact IH|done].
Qed.

Lemma trim_start_head (q : jsstring) :
  match trim_start q with
  | [] => True
  | c :: _ => is_whitespace c = false
  end.
Proof.
  induction q as [|c q IH]; [done|]. simpl.
  destruct (is_whitespace c) eqn:Hc; [exact IH|exact Hc].
Qed.

Lemma trim_nil (q : jsstring) :
  trim q = [] -> forallb is_whitespace q = true.
Proof.
  unfold trim. intros H.
  assert (Hrev : trim_start (rev (trim_start q)) = []).
  { apply (f_equal (@rev N)) in H. by rewrite rev_involutive in H. }
  apply trim_start_nil in Hrev. apply trim_start_nil.
  pose proof (trim_start_head q) as Hhead.
  destruct (trim_start q) as [|c rest]; [done|exfalso].
  rewrite forallb_forall in Hrev. specialize (Hrev c).
  rewrite Hrev in Hhead; [done|]. apply in_rev. rewrite rev_involutive. by left.
Qed.

(** X16: the handler answers 400 exactly for a body other than [null]
    whose query is falsy (absent, [null], empty, zero, [false]) or a
    string of white space only. *)
Theorem status_400_iff_blank_query (w : @world number)
    (request : outcome value) (st : @state number) :
  status (fst (handle w request st)) = 400%Z <->
  exists b,
    request = Returns b /\ present b = true /\
    (truthy (get (js "query") b) = false \/
     exists q, get (js "query") b = VStr q /\ forallb is_whitespace q = true).
Proof.
  unfold POST. split.
  - destruct (validated_query w request) as [early|[query b]] eqn:Hv; simpl.
    + intros Hs. unfold validated_query in Hv.
      destruct request as [b|m]; [|injection Hv as <-; done].
      exists b. split; [done|].
      destruct (present b) eqn:Hb;
        [|destruct b; try discriminate Hb; injection Hv as <-; done].
      split; [done|].
      assert (Hv' :
        (if negb (truthy (get (js "query") b))
         then inl {| status := 400;
                     json := ErrorBody (js "Query parameter is required")
                               None None |}
         else match get (js "query") b with
              | VStr q =>
                  if bool_decide (trim q = [])
                  then inl {| status := 400;
                              json := ErrorBody
                                        (js "Query parameter is required")
                                        None None |}
                  else inr (q, b)
              | _ => inl (failed w 1 (js "query.trim is not a function"))
              end) = (inl early : @response number + (jsstring * value)))
        by (by destruct b).
      destruct (truthy (get (js "query") b)) eqn:Hq; [|by left]. right.
      simpl in Hv'.
      destruct (get (js "query") b) as [| | | |q| |];
        try (injection Hv' as <-; done).
      destruct (bool_decide (trim q = [])) eqn:Ht; [|done].
      exists q. split; [done|]. apply trim_nil.
      by apply bool_decide_eq_true in Ht.
    + destruct (has_api_key w); simpl; [|done].
      destruct (embeddings_create w query) as [e|m1]; simpl; [|done].
      destruct (vectors_query w e _) as [[|r results]|m2]; simpl; try done.
      by destruct (chat_completion w _).
  - intros (b & -> & Hb & Hq).
    assert (Hv : validated_query w (Returns b) =
              inl {| status := 400;
                     json := ErrorBody (js "Query parameter is required")
                               None None |}).
    { destruct Hq as [Hq|Hq].
      - unfold validated_query. rewrite Hq. by destruct b.
      - by apply validated_query_rejects; [|right]. }
    by rewrite Hv.
Qed.

(** X17: the hosted services are called at most once each and in one
    order: embedding, vector query, compression, insert; a later call is
    made only after the earlier ones. *)
Theorem POST_call_order (w : @world number) (request : outcome value)
    (st : @state number) :
  exists evs,
    trace (snd (handle w request st)) = trace st ++ evs /\
    exists query topK prompt row,
      evs `prefix_of` [EmbeddingCall query; VectorQuery topK;
                       CompressionCall prompt; ContextInsert row].
Proof.
  unfold POST.
  set (dummy := {| ctx_id := []; ctx_sessionId := VNull; ctx_query := [];
                   ctx_results := []; ctx_rawContext := [];
                   ctx_compressedSummary := []; ctx_sources := [];
                   ctx_tokenCount := 0 |} : @rag_context number).
  destruct (validated_query w request) as [early|[query b]]; simpl.
  { exists []. rewrite app_nil_r. split; [done|].
    exists [], VNull, [], dummy. apply prefix_nil. }
  destruct (has_api_key w); simpl.
  2: { exists []. rewrite app_nil_r. split; [done|].
       exists [], VNull, [], dummy. apply prefix_nil. }
  destruct (embeddings_create w query) as [e|m1]; simpl.
  2: { eexists. split; [reflexivity|]. exists query, VNull, [], dummy.
       by eexists. }
  destruct (vectors_query w e _) as [[|r results]|m2]; simpl.
  1, 3: eexists; (split; [by rewrite <- app_assoc|]);
    eexists query, _, [], dummy; by eexists.
  destruct (chat_completion w _) as [c|m3]; simpl.
  2: { eexists. split; [by rewrite <- !app_assoc|].
       eexists query, _, _, dummy. by eexists. }
  destruct (truthy (get (js "sessionId") b)); simpl.
  - unfold createRagContext. eexists. split.
    + destruct (insert_raises w); simpl; by rewrite <- !app_assoc.
    + eexists query, _, _, _. by exists [].
  - eexists. split; [by rewrite <- !app_assoc|].
    eexists query, _, _, dummy. by eexists.
Qed.

(** X18: the table changes only by one appended row, only with a 200
    response to a body that carries a truthy session id, and the row
    holds what the response returns: context id, summary, sources, query
    and token count. *)
Theorem POST_stores_what_it_returns (w : @world number)
    (request : outcome value) (st : @state number) :
  table (snd (handle w request st)) = table st \/
  exists b row,
    request = Returns b /\
    table (snd (handle w request st)) = table st ++ [row] /\
    ctx_sessionId row = get (js "sessionId") b /\
    truthy (ctx_sessionId row) = true /\
    status (fst (handle w request st)) = 200%Z /\
    exists processingTimeMs,
      json (fst (handle w request st)) =
        RagBody (ctx_id row) (ctx_compressedSummary row) (ctx_sources row)
          (ctx_query row) processingTimeMs (ctx_tokenCount row).
Proof.
  unfold POST.
  destruct (validated_query w request) as [early|[query b']] eqn:Hv;
    simpl; [by left|].
  assert (request = Returns b') as ->.
  { unfold validated_query in Hv. destruct request as [b|m]; [|done].
    destruct b; try discriminate Hv.
    all: simpl in Hv; try discriminate Hv.
    destruct (negb _); [discriminate Hv|].
    destruct (field (js "query") fields); try discriminate Hv.
    destruct (bool_decide _); [discriminate Hv|]. by injection Hv as _ <-. }
  destruct (has_api_key w); simpl; [|by left].
  destruct (embeddings_create w query) as [e|m1]; simpl; [|by left].
  destruct (vectors_query w e _) as [[|r results]|m2]; simpl; try by left.
  destruct (chat_completion w _) as [c|m3]; simpl; [|by left].
  destruct (truthy (get (js "sessionId") b')) eqn:Hsid; simpl; [|by left].
  unfold createRagContext. destruct (insert_raises w); simpl; [by left|].
  right. eexists b', _. repeat split; try done. by eexists.
Qed.

(** X19: the response has status 200 exactly when the query is accepted,
    the API key is set, the embedding call and the vector query return,
    and either nothing was found or the compression call returns. *)
Theorem status_200_iff (w : @world number) (request : outcome value)
    (st : @state number) :
  status (fst (handle w request st)) = 200%Z <->
  exists query b embedding results,
    validated_query w request = inr (query, b) /\
    has_api_key w = true /\
    embeddings_create w query = Returns embedding /\
    vectors_query w embedding
      (match get (js "topK") b with VUndefined => VNum 5 | k => k end)
      = Returns results /\
    (results = [] \/
     exists c, chat_completion w (compression_prompt toFixed4 query results)
               = Returns c).
Proof.
  unfold POST. split.
  - destruct (validated_query w request) as [early|[query b]] eqn:Hv; simpl.
    { intros Hs. exfalso. unfold validated_query in Hv.
      destruct request as [b|m]; [|injection Hv as <-; done].
      destruct b; try (injection Hv as <-; done).
      all: destruct (negb _); [injection Hv as <-; done|].
      all: try (injection Hv as <-; done).
      all: destruct (get _ _); try (injection Hv as <-; done).
      all: destruct (bool_decide _); [injection Hv as <-; done|done]. }
    destruct (has_api_key w); simpl; [|done].
    destruct (embeddings_create w query) as [e|m1] eqn:He; simpl; [|done].
    destruct (vectors_query w e _) as [[|r results]|m2] eqn:Hq; simpl;
      [| |done].
    + intros _. exists query, b, e, []. repeat split; try done. by left.
    + destruct (chat_completion w _) as [c|m3] eqn:Hc; simpl; [|done].
      intros _. exists query, b, e, (r :: results). repeat split; try done.
      right. by exists c.
  - intros (query & b & e & results & -> & -> & He & Hq & Hc). simpl.
    rewrite He. simpl. rewrite Hq.
    destruct results as [|r results]; [done|].
    destruct Hc as [|[c ->]]; [done|]. done.
Qed.

End EcoRagMore.

Lemma POST_stores_what_it_returns_witness :
  exists row,
    table (snd (POST show_Z (fun d => (1 - d)%Z) sample_world sample_request
                  empty_state)) = [row] /\
    ctx_id row = js "ctx_1020_k3x9q0abc" /\
    ctx_sessionId row = VStr (js "s1").
Proof.
  destruct (POST_stores_what_it_returns show_Z (fun d => (1 - d)%Z)
              sample_world sample_request empty_state)
    as [Hsame|(b & row & _ & Htable & _)].
  - vm_compute in Hsame. discriminate Hsame.
  - exists row. split; [exact Htable|].
    vm_compute in Htable. injection Htable as <-. split; reflexivity.
Defined.

(** ** The tools, again *)

Section ToolsMore.

Context {number : Type}.
Variable toFixed4 : number -> jsstring.
Variable one_minus : number -> number.

#[local] Abbreviation rag_search := (olympiaRAGSearch toFixed4 one_minus).

(** One call adds at most one row, for its own session id. *)
Lemma search_table (w : @tool_world number) (query : jsstring)
    (topK sessionId : value) (st : @state number) :
  table (snd (rag_search w query topK sessionId st)) = table st \/
  exists row,
    table (snd (rag_search w query topK sessionId st)) = table st ++ [row] /\
    ctx_sessionId row = sessionId /\ truthy sessionId = true.
Proof.
  unfold olympiaRAGSearch.
  destruct (if truthy sessionId then _ else None); [by left|].
  destruct (fetch_raises w); [by left|].
  pose proof (POST_table toFixed4 one_minus (endpoint w)
                (request_body query topK sessionId) st) as Htable.
  rewrite request_body_sessionId in Htable.
  destruct (POST toFixed4 one_minus (endpoint w) _ st) as [response st'].
  simpl in Htable.
  destruct (json response); [exact Htable| |exact Htable].
  by destruct (track_raises w).
Qed.

(** X20: a call leaves the contexts of every other session as they were;
    a call without session id (or with the empty one) stores nothing. *)
Theorem search_sessions_independent (w : @tool_world number)
    (query : jsstring) (topK sessionId : value) (st : @state number) :
  (forall other, sessionId <> other ->
     listRagContextsForSession other
       (table (snd (rag_search w query topK sessionId st)))
     = listRagContextsForSession other (table st)) /\
  (truthy sessionId = false ->
   table (snd (rag_search w query topK sessionId st)) = table st).
Proof.
  destruct (search_table w query topK sessionId st)
    as [->|(row & -> & Hrow & Htruthy)]; [done|]. split.
  - intros other Hother. unfold listRagContextsForSession.
    rewrite filter_app, filter_cons, decide_False, filter_nil, app_nil_r; [done|].
    rewrite Hrow. intros Heq. by apply value_eqb_eq in Heq.
  - intros Hfalsy. by rewrite Hfalsy in Htruthy.
Qed.

Lemma substring0_length (n : Z) (s : jsstring) :
  (0 <= n)%Z -> (len (substring0 n s) <= n)%Z.
Proof.
  intros Hn. unfold len, substring0. rewrite length_take. lia.
Qed.

(** X21: what a successful search hands to the model is bounded and
    consistent: the brief has at most 6003 code units, the count of
    results is the number of sources, and for a session that held at most
    4 contexts the number of searches remaining is 4 minus the contexts
    now stored, between 0 and 4. *)
Theorem search_payload_bounded (w : @tool_world number) (query : jsstring)
    (topK sessionId : value) (st : @state number)
    (payload : @search_payload number) :
  truthy sessionId = true ->
  countRagContextsForSession sessionId (table st) <= 4 ->
  fst (rag_search w query topK sessionId st) = SearchJson payload ->
  (len (payload_brief payload) <= 6003)%Z /\
  payload_resultCount payload = length (payload_sources payload) /\
  payload_searchesRemaining payload =
    (4 - Z.of_nat (countRagContextsForSession sessionId
                     (table (snd (rag_search w query topK sessionId st)))))%Z /\
  (0 <= payload_searchesRemaining payload <= 4)%Z /\
  payload_warning payload = searchWarning (payload_searchesRemaining payload).
Proof.
  intros Hsid Hcap.
  pose proof (search_keeps_cap toFixed4 one_minus w query topK sessionId st
                sessionId Hcap) as Hafter.
  revert Hafter.
  unfold olympiaRAGSearch, MAX_RAG_CALLS_PER_SESSION. rewrite Hsid.
  destruct (4 <=? countRagContextsForSession sessionId (table st)); [done|].
  destruct (fetch_raises w); [done|].
  destruct (POST toFixed4 one_minus (endpoint w) _ st) as [response st'].
  destruct (json response) as [? ? ?|cid summary sources q t n|]; [done| |done].
  destruct (track_raises w); [done|]. cbn [fst snd].
  intros Hafter [= <-]. cbn [payload_brief payload_resultCount payload_sources
    payload_searchesRemaining payload_warning].
  repeat split; try done; try lia.
  destruct (bool_decide (summary = [])); [by vm_compute|].
  unfold len. rewrite length_app.
  pose proof (substring0_length 6000 summary ltac:(lia)) as Hs. unfold len in Hs.
  destruct (_ <? _)%Z; simpl; lia.
Qed.

End ToolsMore.

Lemma search_sessions_independent_witness :
  listRagContextsForSession (VStr (js "s2"))
    (table (snd (olympiaRAGSearch show_Z (fun d => (1 - d)%Z)
                   sample_tool_world (js "sea level") (VNum 8)
                   (VStr (js "s1")) empty_state))) = [].
Proof.
  rewrite (proj1 (search_sessions_independent show_Z (fun d => (1 - d)%Z)
                    sample_tool_world (js "sea level") (VNum 8)
                    (VStr (js "s1")) empty_state) (VStr (js "s2")));
    [reflexivity|discriminate].
Defined.

Lemma search_payload_bounded_witness :
  exists payload,
    fst (olympiaRAGSearch show_Z (fun d => (1 - d)%Z) sample_tool_world
           (js "sea level") (VNum 8) (VStr (js "s1")) empty_state)
      = SearchJson payload /\
    payload_searchesRemaining payload = 3%Z /\
    (len (payload_brief payload) <= 6003)%Z.
Proof.
  eexists. split; [reflexivity|].
  edestruct (search_payload_bounded show_Z (fun d => (1 - d)%Z)
               sample_tool_world (js "sea level") (VNum 8) (VStr (js "s1"))
               empty_state) as (Hbrief & _ & Hrem & _).
  - reflexivity.
  - vm_compute. lia.
  - reflexivity.
  - split; [|exact Hbrief]. rewrite Hrem. reflexivity.
Defined.


Section ImagesAndTables.

(** X22: [generateImage] returns either an error text that begins with
    the cross mark or an object with [success: true]; a stored row has the
    generated id and holds the base64 payload, and the object returned
    points to that row, or has no pointer when nothing was stored. *)
Theorem generateImage_result (w : image_world) (a : image_args)
    (userId sessionId : value) :
  ((exists text, fst (generateImage w a userId sessionId) = VStr text /\
                 cross_mark `prefix_of` text) \/
   (exists fs, fst (generateImage w a userId sessionId) = VObj fs /\
               field (js "success") fs = VBool true /\
               match snd (generateImage w a userId sessionId) with
               | Some row =>
                   field (js "imageId") fs = VStr (image_id row) /\
                   field (js "imageUrl") fs
                     = VStr (js "/api/images/" ++ image_id row)
               | None =>
                   field (js "imageId") fs = VUndefined /\
                   field (js "imageUrl") fs = VUndefined
               end)) /\
  (forall row, snd (generateImage w a userId sessionId) = Some row ->
     image_id row = randomUUID w /\ truthy (image_data row) = true /\
     image_prompt row = arg_prompt a).
Proof.
  unfold generateImage. destruct (openai_api_key w); simpl.
  2: { split; [left; eexists; split; [done|by eexists]|done]. }
  unfold generateImage_finish.
  destruct (images_generate w _ _ _ _) as [[|first rest]|message].
  - split; [left; eexists; split; [done|by eexists]|done].
  - destruct (truthy (b64_json first)) eqn:Hb; simpl.
    2: { split; [left; eexists; split; [done|by eexists]|done]. }
    destruct (createImage_raises w), (image_track_raises w); simpl.
    + split; [left; eexists; split; [done|by eexists]|done].
    + split; [right; eexists; by repeat split|done].
    + split; [left; eexists; split; [done|by eexists]|].
      by intros row [= <-].
    + split; [right; eexists; by repeat split|].
      by intros row [= <-].
  - split; [left; eexists; split; [done|by eexists]|done].
Qed.

Lemma quote_not_needed (cell : jsstring) :
  needs_quoting cell = false -> 34%N ∉ cell.
Proof.
  intros Hq Hin. unfold needs_quoting in Hq.
  assert (existsb (fun c => (c =? 44) || (c =? 34) || (c =? 10))%N cell = true);
    [|congruence].
  apply existsb_exists. exists 34%N. split; [by apply list_elem_of_In|done].
Qed.

Lemma double_quotes_inj (c d : jsstring) :
  double_quotes c = double_quotes d -> c = d.
Proof.
  revert d. induction c as [|x c IH]; intros [|y d]; simpl; try done.
  - by destruct (y =? 34)%N.
  - by destruct (x =? 34)%N.
  - destruct (N.eqb_spec x 34) as [->|Hx], (N.eqb_spec y 34) as [->|Hy]; simpl.
    + intros [= H]. by rewrite (IH d H).
    + intros [= <- _]. done.
    + intros [= -> _]. done.
    + intros [= -> H]. by rewrite (IH d H).
Qed.

Lemma double_quotes_has_quote (cell : jsstring) :
  34%N ∈ double_quotes cell -> 34%N ∈ cell.
Proof.
  induction cell as [|x cell IH]; simpl; [done|].
  destruct (N.eqb_spec x 34) as [->|Hx]; simpl.
  - intros _. by left.
  - intros Hin. apply elem_of_cons in Hin as [Hin|Hin]; [done|].
    right. by apply IH.
Qed.

(** X23: the escaping of CSV cells loses nothing: two cells with the same
    escaped form are the same cell; a cell without comma, double quote and
    line feed is written as it is. *)
Theorem escape_cell_injective (c d : jsstring) :
  (escape_cell c = escape_cell d -> c = d) /\
  (needs_quoting c = false -> escape_cell c = c).
Proof.
  unfold escape_cell. split; [|by intros ->].
  destruct (needs_quoting c) eqn:Hc, (needs_quoting d) eqn:Hd; try done.
  - intros H. injection H as H. apply app_inv_tail in H.
    by apply double_quotes_inj.
  - intros H. exfalso. apply (quote_not_needed d Hd).
    rewrite <- H. by left.
  - intros H. exfalso. apply (quote_not_needed c Hc).
    rewrite H. by left.
Qed.

Lemma invalidRows_nil (a : csv_args) :
  invalidRows a = [] <->
  Forall (fun row => length row = length (csv_headers a)) (csv_rows a).
Proof.
  unfold invalidRows. induction (csv_rows a) as [|row rows IH]; [done|].
  rewrite filter_cons. destruct (decide (length row <> length (csv_headers a)))
    as [Hbad|Hok].
  - split; [done|]. intros H. apply Forall_cons in H as [H _]. done.
  - split.
    + intros H. constructor; [|by apply IH].
      destruct (decide (length row = length (csv_headers a))); [done|].
      by destruct Hok.
    + intros H. apply Forall_cons in H as [_ H]. by apply IH.
Qed.

(** X24: [createCSV] rejects a table exactly when some row has not as
    many cells as there are headers: it then returns an error object that
    counts those rows and stores nothing; otherwise, when the tracking
    call returns, the object returned carries the CSV text, the number of
    rows and the number of columns. *)
Theorem createCSV_validates_rows (w : csv_world) (a : csv_args)
    (userId sessionId : value) :
  (~ Forall (fun row => length row = length (csv_headers a)) (csv_rows a) ->
   field (js "error") (match fst (createCSV w a userId sessionId) with
                       | VObj fs => fs | _ => [] end) = VBool true /\
   field (js "invalidRowCount")
     (match fst (createCSV w a userId sessionId) with
      | VObj fs => fs | _ => [] end)
     = VNum (Z.of_nat (length (invalidRows a))) /\
   0 < length (invalidRows a) /\
   snd (createCSV w a userId sessionId) = None) /\
  (Forall (fun row => length row = length (csv_headers a)) (csv_rows a) ->
   csv_track_raises w = None ->
   exists fs,
     fst (createCSV w a userId sessionId) = VObj fs /\
     field (js "error") fs = VUndefined /\
     field (js "csvContent") fs
       = VStr (csvContent (csv_headers a) (csv_rows a)) /\
     field (js "rowCount") fs = VNum (Z.of_nat (length (csv_rows a))) /\
     field (js "columnCount") fs = VNum (Z.of_nat (length (csv_headers a))) /\
     match snd (createCSV w a userId sessionId) with
     | Some row =>
         field (js "csvId") fs = VStr (stored_csv_id row) /\
         stored_csv_rows row = csv_rows a /\
         stored_csv_headers row = csv_headers a
     | None => field (js "csvId") fs = VUndefined
     end).
Proof.
  unfold createCSV. split.
  - intros Hbad. destruct (invalidRows a) as [|bad rest] eqn:Hinv.
    + exfalso. apply Hbad. by apply invalidRows_nil.
    + simpl. repeat split; try done. lia.
  - intros Hok Htrack. apply invalidRows_nil in Hok. rewrite Hok, Htrack.
    destruct (createCSV_raises w); simpl; eexists; by repeat split.
Qed.

Lemma escape_cell_injective_witness :
  escape_cell (js "12") = js "12" /\
  (escape_cell (js "a,b") = escape_cell (js "a,b") -> js "a,b" = js "a,b").
Proof.
  split.
  - apply (proj2 (escape_cell_injective (js "12") (js "12"))). reflexivity.
  - apply (proj1 (escape_cell_injective (js "a,b") (js "a,b"))).
Defined.

Lemma createCSV_validates_rows_witness :
  snd (createCSV sample_csv_world ragged_csv VUndefined VUndefined) = None /\
  exists fs,
    fst (createCSV sample_csv_world sample_csv VUndefined VUndefined) = VObj fs /\
    field (js "rowCount") fs = VNum 2.
Proof.
  split.
  - apply (proj1 (createCSV_validates_rows sample_csv_world ragged_csv
                    VUndefined VUndefined)).
    intros H. apply Forall_cons in H as [_ H]. apply Forall_cons in H as [H _].
    discriminate H.
  - destruct (proj2 (createCSV_validates_rows sample_csv_world sample_csv
                       VUndefined VUndefined))
      as (fs & Hfs & _ & _ & Hrows & _).
    + repeat constructor.
    + reflexivity.
    + exists fs. split; [exact Hfs|exact Hrows].
Defined.

(** X25: [codeExecution] runs the code at most once, and only when it has
    at most 10000 code units and both settings are present; every sandbox
    that was created is deleted afterwards, whatever the run or the
    tracking raised; code that is too long reaches no sandbox. *)
Theorem codeExecution_sandbox_lifecycle (w : sandbox_world) (code : jsstring)
    (description : value) :
  (snd (codeExecution w code description) = [] \/
   (snd (codeExecution w code description) = [SandboxCreate] /\
    exists message, create_sandbox w = Raises message) \/
   (snd (codeExecution w code description)
      = [SandboxCreate; CodeRun code; SandboxDelete] /\
    create_sandbox w = Returns ())) /\
  (snd (codeExecution w code description) <> [] ->
   (len code <= 10000)%Z /\ daytona_api_key w = true /\
   daytona_api_url w = true) /\
  ((10000 < len code)%Z ->
   codeExecution w code description =
     (no_entry_sign
      ++ js " **Error**: Code too long. Please limit your code to 10,000 characters.",
      [])).
Proof.
  unfold codeExecution.
  destruct (Z.ltb_spec 10000 (len code)) as [Hlong|Hshort].
  { repeat split; try done. by left. }
  destruct (daytona_api_key w); simpl.
  2: { repeat split; try done; [by left|lia]. }
  destruct (daytona_api_url w); simpl.
  2: { repeat split; try done; [by left|lia]. }
  split; [|split; [done|lia]].
  destruct (create_sandbox w) as [[]|message] eqn:Hcreate.
  - right. right. split; [|done].
    destruct (codeRun w code) as [e|m]; [|done].
    destruct (code_track_raises w); [done|].
    by destruct (negb _).
  - right. left. split; [done|]. by exists message.
Qed.

Lemma codeExecution_sandbox_lifecycle_witness :
  snd (codeExecution sample_sandbox (js "print(1)") VUndefined)
    = [SandboxCreate; CodeRun (js "print(1)"); SandboxDelete] /\
  (len (js "print(1)") <= 10000)%Z.
Proof.
  split; [reflexivity|].
  apply (proj1 (proj2 (codeExecution_sandbox_lifecycle sample_sandbox
                         (js "print(1)") VUndefined))).
  discriminate.
Defined.

End ImagesAndTables.
